(** * dpvo/utils.py: the hierarchical timing recorder and its report

    A shallow embedding of the timing part of [dpvo/utils.py]: the
    process-wide recorder [all_times], the [Timer] context manager, the
    [_Node] tree built from dotted names and [print_timing_summary].
    Of the tensor helpers, [all_pairs_exclusive] and the call of
    [flatmeshgrid] with two tensors are modelled, on lists of indices;
    the others work on float32 tensors and are not modelled.

    Python values are modelled as follows.
    - [str] is [string]; a character is a code point below 256, so that
      [len] is the number of characters.
    - [float] is the primitive binary64 type [float].
    - a [dict] (and a [defaultdict]) is an association list in insertion
      order, which is the order [items()] iterates in.
    - [print] appends its text to the list [stdout] of the world; every
      element stands for one call (the text followed by a newline).
    - an exception is a [Raise] result of the monad [Py]. *)

From Stdlib Require Import ZArith List String Ascii Bool Lia PeanoNat Permutation.
From Stdlib Require Import DecimalString.
From Stdlib Require Import PrimFloat FloatOps SpecFloat Uint63.
Import ListNotations.

Local Open Scope list_scope.
Local Open Scope string_scope.

(** ** Python strings *)

Module PyStr.

(** [s.split(sep)] for a one-character separator: the result is never
    empty, and an empty segment is kept wherever two separators meet or
    the string starts or ends with one. *)
Fixpoint split (sep : ascii) (s : string) : list string :=
  match s with
  | EmptyString => [EmptyString]
  | String c s' =>
      if Ascii.eqb c sep then EmptyString :: split sep s'
      else match split sep s' with
           | seg :: segs => String c seg :: segs
           | [] => [String c EmptyString]
           end
  end.

(** [sep.join(parts)] *)
Fixpoint join (sep : ascii) (parts : list string) : string :=
  match parts with
  | [] => EmptyString
  | [p] => p
  | p :: ps => p ++ String sep (join sep ps)
  end.

(** [s * n] *)
Fixpoint repeat (s : string) (n : nat) : string :=
  match n with
  | O => EmptyString
  | S n' => s ++ repeat s n'
  end.

(** [f"{s:<width}"]: pad with spaces on the right; a longer string is
    kept whole. *)
Definition ljust (width : nat) (s : string) : string :=
  s ++ repeat " " (width - String.length s).

(** Truth value of a string: only the empty string is false. *)
Definition truthy (s : string) : bool :=
  match s with
  | EmptyString => false
  | String _ _ => true
  end.

(** [str(n)] for a non-negative integer. *)
Definition of_nat (n : nat) : string := NilZero.string_of_uint (Nat.to_uint n).
Definition of_N (n : N) : string := NilZero.string_of_uint (N.to_uint n).

(** [s.count(c)] for a character [c]. *)
Fixpoint count (c : ascii) (s : string) : nat :=
  match s with
  | EmptyString => 0
  | String c' s' => (if Ascii.eqb c' c then 1 else 0) + count c s'
  end.

(** Whether the character [c] occurs in [s]. *)
Fixpoint contains (c : ascii) (s : string) : bool :=
  match s with
  | EmptyString => false
  | String c' s' => Ascii.eqb c' c || contains c s'
  end.

Fixpoint list_eqb (l1 l2 : list string) : bool :=
  match l1, l2 with
  | [], [] => true
  | x :: l1', y :: l2' => String.eqb x y && list_eqb l1' l2'
  | _, _ => false
  end.

End PyStr.

(** ** Python floats *)

Module PyFloat.

Local Open Scope Z_scope.

(** The integer nearest to [m * 2^e], ties to the even one. *)
Definition round_half_even (m e : Z) : Z :=
  if 0 <=? e then m * 2 ^ e
  else
    let den := 2 ^ (- e) in
    let q := m / den in
    let r := m mod den in
    if (den <? 2 * r) || ((den =? 2 * r) && Z.odd q) then q + 1 else q.

(** The digits of [n] (the value scaled by [10^prec]) with the decimal
    point put back. *)
Definition fixed_digits (prec : nat) (n : Z) : string :=
  let ds := PyStr.of_N (Z.to_N n) in
  let ds := PyStr.repeat "0" (S prec - String.length ds) ++ ds in
  match prec with
  | O => ds
  | _ =>
      let k := (String.length ds - prec)%nat in
      substring 0 k ds ++ "." ++ substring k prec ds
  end.

Definition sign_str (s : bool) : string := if s then "-" else "".

(** [f"{x:.<prec>f}"]: the exact binary value rounded to [prec] decimals,
    ties to even, as the correctly rounded conversion of CPython does. *)
Definition format_f (prec : nat) (x : float) : string :=
  match Prim2SF x with
  | S754_nan => "nan"
  | S754_infinity s => sign_str s ++ "inf"
  | S754_zero s => sign_str s ++ fixed_digits prec 0
  | S754_finite s m e =>
      sign_str s ++ fixed_digits prec (round_half_even (Z.pos m * 10 ^ Z.of_nat prec) e)
  end.

(** [float(n)] for the length [n] of a list, which is below [2^63]. *)
Definition of_nat (n : nat) : float := PrimFloat.of_uint63 (Uint63.of_Z (Z.of_nat n)).

(** [sum(l)]: the additions are made from left to right, starting from
    zero. (The sum of no sample is the integer 0, which is formatted as
    the float 0.0 is. From CPython 3.12 on the additions are compensated;
    the result is the same whenever the partial sums are exact, as they
    are for the samples written out below.) *)
Definition sum (l : list float) : float := fold_left PrimFloat.add l 0%float.

End PyFloat.

(** ** Dictionaries in insertion order *)

Module Dict.

Section Ops.
Context {V : Type}.

(** [d.get(k)]: the value stored under [k]. *)
Fixpoint lookup (k : string) (d : list (string * V)) : option V :=
  match d with
  | [] => None
  | (k', v) :: d' => if String.eqb k' k then Some v else lookup k d'
  end.

(** What [d[k].m()] does to a [defaultdict] whose factory gives [dflt],
    when the method [m] turns the value [v] into [f v]: the value under
    [k] is updated in place, and a missing key is first inserted, after
    all the others, with the value [dflt]. *)
Fixpoint update (dflt : V) (k : string) (f : V -> V) (d : list (string * V))
  : list (string * V) :=
  match d with
  | [] => [(k, f dflt)]
  | (k', v) :: d' =>
      if String.eqb k' k then (k', f v) :: d' else (k', v) :: update dflt k f d'
  end.

Definition keys (d : list (string * V)) : list string := map fst d.

End Ops.

End Dict.

(** ** The world: recorder, console and device *)

(** What the program asks of the CUDA runtime, in the order it asks. *)
Inductive CudaCall : Type :=
| EventCreate (ev : nat)
| EventRecord (ev : nat)
| Synchronize
| ElapsedTime (ev_start ev_end : nat).

(** [all_times: dict[str, list] = defaultdict(list)] *)
Definition Recorder : Type := list (string * list float).

Record World : Type := mkWorld {
  all_times : Recorder;
  stdout : list string;
  cuda : list CudaCall
}.

Inductive PyExc : Type :=
| ZeroDivisionError
| AttributeError
| RecursionError.

Inductive Result (A : Type) : Type :=
| Ok (a : A)
| Raise (e : PyExc).
Arguments Ok {A} a.
Arguments Raise {A} e.

(** A Python computation: it runs in a world, changes it, and returns a
    value or raises. *)
Definition Py (A : Type) : Type := World -> Result A * World.

Definition ret {A} (a : A) : Py A := fun w => (Ok a, w).

Definition bind {A B} (c : Py A) (k : A -> Py B) : Py B :=
  fun w =>
    match c w with
    | (Ok a, w') => k a w'
    | (Raise e, w') => (Raise e, w')
    end.

Definition raise {A} (e : PyExc) : Py A := fun w => (Raise e, w).

Declare Scope py_scope.
Delimit Scope py_scope with py.
Notation "x <- c ;; k" := (bind c (fun x => k))
  (at level 61, c at next level, right associativity) : py_scope.
Notation "c ;; k" := (bind c (fun _ => k))
  (at level 61, right associativity) : py_scope.

Local Open Scope py_scope.

(** [for k, v in d.items(): body] *)
Definition for_items {V} (d : list (string * V)) (body : string -> V -> Py unit)
  : Py unit :=
  (fix loop (items : list (string * V)) : Py unit :=
     match items with
     | [] => ret tt
     | (k, v) :: items' => body k v ;; loop items'
     end) d.

(** [print(text)] *)
Definition print (text : string) : Py unit :=
  fun w => (Ok tt, mkWorld (all_times w) (stdout w ++ [text])%list (cuda w)).

(** Reading the global [all_times]. *)
Definition get_all_times : Py Recorder := fun w => (Ok (all_times w), w).

(** [all_times[name].append(elapsed)] *)
Definition record_sample (name : string) (elapsed : float) : Py unit :=
  fun w =>
    (Ok tt,
     mkWorld (Dict.update [] name (fun l => l ++ [elapsed])%list (all_times w))
             (stdout w) (cuda w)).

Definition cuda_call (c : CudaCall) : Py unit :=
  fun w => (Ok tt, mkWorld (all_times w) (stdout w) (cuda w ++ [c])%list).

(** [x / n] for a float and an integer. *)
Definition truediv (x : float) (n : nat) : Py float :=
  match n with
  | O => raise ZeroDivisionError
  | S _ => ret (x / PyFloat.of_nat n)%float
  end.

(** ** The Timer context manager *)

Module Timer.

Section Device.

(** The milliseconds the device reports between two recorded events,
    given everything asked of it so far. *)
Variable device_elapsed : list CudaCall -> nat -> nat -> float.

(** [torch.cuda.Event(enable_timing=True)]: a fresh event. *)
Definition new_event : Py nat :=
  fun w =>
    let ev := List.length (cuda w) in
    (Ok ev, mkWorld (all_times w) (stdout w) (cuda w ++ [EventCreate ev])%list).

(** [start.elapsed_time(end)] *)
Definition elapsed_time (ev_start ev_end : nat) : Py float :=
  fun w =>
    (Ok (device_elapsed (cuda w) ev_start ev_end),
     mkWorld (all_times w) (stdout w) (cuda w ++ [ElapsedTime ev_start ev_end])%list).

(** A [Timer] object. The attributes [start] and [end] exist only when
    [__init__] has set them. *)
Record t : Type := mk {
  name : string;
  enabled : bool;
  start : option nat;
  end_ : option nat
}.

(** Reading an attribute that may not exist. *)
Definition getattr (a : option nat) : Py nat :=
  match a with
  | Some ev => ret ev
  | None => raise AttributeError
  end.

Definition __init__ (name : string) (enabled : bool) : Py t :=
  if enabled then
    ev_start <- new_event ;;
    ev_end <- new_event ;;
    ret (mk name enabled (Some ev_start) (Some ev_end))
  else ret (mk name enabled None None).

Definition __enter__ (self : t) : Py unit :=
  if enabled self then
    ev <- getattr (start self) ;;
    cuda_call (EventRecord ev)
  else ret tt.

Definition __exit__ (self : t) : Py unit :=
  if enabled self then
    ev_end <- getattr (end_ self) ;;
    cuda_call (EventRecord ev_end) ;;
    cuda_call Synchronize ;;
    ev_start <- getattr (start self) ;;
    elapsed <- elapsed_time ev_start ev_end ;;
    record_sample (name self) elapsed
  else ret tt.

(** [with Timer(name, enabled): body]. [__exit__] returns [None], so an
    exception of the body is raised again after it. *)
Definition with_timer {A} (name : string) (enabled : bool) (body : Py A) : Py A :=
  self <- __init__ name enabled ;;
  __enter__ self ;;
  fun w =>
    match body w with
    | (Ok a, w') => (__exit__ self ;; ret a) w'
    | (Raise e, w') => (__exit__ self ;; raise e) w'
    end.

End Device.

End Timer.

(** ** The timing tree *)

(** A node in the timing tree. *)
#[local] Unset Elimination Schemes.
Inductive _Node : Type :=
| mkNode (self_times : list float) (children : list (string * _Node)).

#[local] Set Elimination Schemes.

Definition self_times (n : _Node) : list float :=
  match n with mkNode ts _ => ts end.

Definition children (n : _Node) : list (string * _Node) :=
  match n with mkNode _ cs => cs end.

(** [_Node()] *)
Definition new_node : _Node := mkNode [] [].

(** [_Node.extend]. The node is changed in place; here the changed node
    is returned, and [self] is the last argument, so that the call on
    the child [self.children[parts[0]]] is the update of that entry. *)
Fixpoint extend (parts : list string) (values : list float) (self : _Node) : _Node :=
  match parts with
  | [] => mkNode (self_times self ++ values)%list (children self)
  | part :: rest =>
      mkNode (self_times self)
             (Dict.update new_node part (extend rest values) (children self))
  end.

(** The loop of [print_timing_summary] that fills the tree. *)
Definition build_tree (times : Recorder) : _Node :=
  fold_left (fun root '(fullname, lst) => extend (PyStr.split "." fullname) lst root)
            times new_node.

(** The f-string of [_print_exclusive]. *)
Definition node_line (pad name : string) (total : float) (count : nat) (avg : float)
  : string :=
  pad ++ PyStr.ljust 15 name ++ " total " ++ PyFloat.format_f 0 total ++ " ms   "
  ++ PyStr.of_nat count ++ " runs   avg " ++ PyFloat.format_f 2 avg ++ " ms".

Fixpoint _print_exclusive (node : _Node) (name : string) (indent : nat) {struct node}
  : Py unit :=
  (if PyStr.truthy name then
     let pad := PyStr.repeat "    " indent in
     let total := PyFloat.sum (self_times node) in
     let count := List.length (self_times node) in
     avg <- (match count with O => ret 0%float | S _ => truediv total count end) ;;
     print (node_line pad name total count avg)
   else ret tt) ;;
  for_items (match node with mkNode _ cs => cs end)
    (fun child_name child => _print_exclusive child child_name (indent + 1)).

Definition print_timing_summary : Py unit :=
  times <- get_all_times ;;
  let root := build_tree times in
  print (String "010" "=== timing summary ===") ;;
  _print_exclusive root "" 0.

(** ** The recursion limit *)

(** [extend] and [_print_exclusive] call themselves once for every
    segment, and the interpreter raises RecursionError when a call would
    go beyond its recursion limit. In the definitions below [frames] is
    the number of nested calls of Python functions that the interpreter
    still allows inside the body of [print_timing_summary]; a call with
    no frame left raises. Built-in functions ([print], [sum], [len],
    [list.extend], [str.split]) take no frame. *)

(** [_Node()], whose [__init__] is a Python function. *)
Definition new_node_limited (frames : nat) : Result _Node :=
  match frames with
  | O => Raise RecursionError
  | S _ => Ok new_node
  end.

(** [_Node.extend] under the limit. A missing child is made by [_Node()]
    one call below the caller, which is no deeper than the call of
    [extend] on that child. When the call on the child raises, the tree
    is left half changed; it is dropped with the exception. *)
Fixpoint extend_limited (frames : nat) (parts : list string) (values : list float)
  (self : _Node) : Result _Node :=
  match frames with
  | O => Raise RecursionError
  | S frames' =>
      match parts with
      | [] => Ok (mkNode (self_times self ++ values)%list (children self))
      | part :: rest =>
          let child := match Dict.lookup part (children self) with
                       | Some c => c
                       | None => new_node
                       end in
          match extend_limited frames' rest values child with
          | Ok child' =>
              Ok (mkNode (self_times self)
                         (Dict.update new_node part (fun _ => child') (children self)))
          | Raise e => Raise e
          end
      end
  end.

(** The loop that fills the tree, under the limit. *)
Definition build_tree_limited (frames : nat) (times : Recorder) : Result _Node :=
  fold_left
    (fun acc '(fullname, lst) =>
       match acc with
       | Ok root => extend_limited frames (PyStr.split "." fullname) lst root
       | Raise e => Raise e
       end)
    times (new_node_limited frames).

Fixpoint _print_exclusive_limited (frames : nat) (node : _Node) (name : string)
  (indent : nat) {struct node} : Py unit :=
  match frames with
  | O => raise RecursionError
  | S frames' =>
      (if PyStr.truthy name then
         let pad := PyStr.repeat "    " indent in
         let total := PyFloat.sum (self_times node) in
         let count := List.length (self_times node) in
         avg <- (match count with O => ret 0%float | S _ => truediv total count end) ;;
         print (node_line pad name total count avg)
       else ret tt) ;;
      for_items (match node with mkNode _ cs => cs end)
        (fun child_name child =>
           _print_exclusive_limited frames' child child_name (indent + 1))
  end.

Definition print_timing_summary_limited (frames : nat) : Py unit :=
  times <- get_all_times ;;
  match build_tree_limited frames times with
  | Raise e => raise e
  | Ok root =>
      print (String "010" "=== timing summary ===") ;;
      _print_exclusive_limited frames root "" 0
  end.

(** ** Reading the tree *)

(** The node reached from [n] along the segments of [path]. *)
Fixpoint node_at (path : list string) (n : _Node) : option _Node :=
  match path with
  | [] => Some n
  | seg :: rest =>
      match Dict.lookup seg (children n) with
      | Some child => node_at rest child
      | None => None
      end
  end.

Definition self_times_at (path : list string) (n : _Node) : list float :=
  match node_at path n with
  | Some m => self_times m
  | None => []
  end.

(** The samples of the recorder whose name splits exactly into [path],
    in the order of the recorder. *)
Definition samples_recorded_at (path : list string) (times : Recorder) : list float :=
  List.concat (map snd
    (filter (fun entry => PyStr.list_eqb (PyStr.split "." (fst entry)) path) times)).

(** Every node of the tree has its children under distinct names. *)
Fixpoint distinct_children (n : _Node) : Prop :=
  match n with
  | mkNode _ cs =>
      NoDup (map fst cs) /\
      (fix all (items : list (string * _Node)) : Prop :=
         match items with
         | [] => True
         | (_, child) :: items' => distinct_children child /\ all items'
         end) cs
  end.

(** The calls of [_print_exclusive] that one call on [node], reached
    along [path], gives rise to, itself included, in the order they are
    made. *)
Fixpoint visits (path : list string) (node : _Node) {struct node}
  : list (list string * _Node) :=
  (path, node) ::
  flat_map (fun '(child_name, child) => visits (path ++ [child_name])%list child)
           (match node with mkNode _ cs => cs end).

(** The statistics of a node, as [_print_exclusive] computes them. *)
Definition node_total (n : _Node) : float := PyFloat.sum (self_times n).
Definition node_count (n : _Node) : nat := List.length (self_times n).
Definition node_avg (n : _Node) : float :=
  match node_count n with
  | O => 0%float
  | S _ => (node_total n / PyFloat.of_nat (node_count n))%float
  end.

(** The name and the indent a node reached along [path] is printed
    with. *)
Definition visit_name (path : list string) : string := last path "".
Definition visit_indent (path : list string) : nat := List.length path.

Definition visit_printed (v : list string * _Node) : bool :=
  PyStr.truthy (visit_name (fst v)).

Definition visit_line (v : list string * _Node) : string :=
  node_line (PyStr.repeat "    " (visit_indent (fst v))) (visit_name (fst v))
            (node_total (snd v)) (node_count (snd v)) (node_avg (snd v)).

(** The lines printed for a sequence of calls. *)
Definition printed_lines (vs : list (list string * _Node)) : list string :=
  map visit_line (filter visit_printed vs).

Definition header : string := String "010" "=== timing summary ===".

(** The texts one call of [print_timing_summary] prints. *)
Definition report (times : Recorder) : list string :=
  header :: printed_lines (visits [] (build_tree times)).

Definition emit (lines : list string) (w : World) : World :=
  mkWorld (all_times w) (stdout w ++ lines)%list (cuda w).

(** ** Measures of the recorder and of the tree *)

(** The number of samples held by a node and all the nodes below it. *)
Fixpoint sample_count (n : _Node) : nat :=
  List.length (self_times n) +
  list_sum (map (fun '(_, child) => sample_count child)
                (match n with mkNode _ cs => cs end)).

(** The number of samples in the recorder. *)
Definition recorded_count (times : Recorder) : nat :=
  list_sum (map (fun entry => List.length (snd entry)) times).

(** [l] with [k] put last unless it is there already. *)
Definition add_key (k : string) (l : list string) : list string :=
  if existsb (String.eqb k) l then l else (l ++ [k])%list.

(** The distinct elements of [l], each at the place of its first
    occurrence. *)
Definition first_occurrences (l : list string) : list string :=
  fold_left (fun seen k => add_key k seen) l [].

(** The first segment of a dotted name. *)
Definition first_segment (name : string) : string := hd "" (PyStr.split "." name).

(** The state of a recorder that only [Timer] scopes have written to:
    distinct names, each with at least one sample. *)
Definition recorder_ok (times : Recorder) : Prop :=
  NoDup (Dict.keys times) /\ Forall (fun entry => snd entry <> []) times.

(** ** Index tensors *)

Module Torch.

(** [torch.arange(n)] for an integer [n >= 0]. *)
Definition arange (n : nat) : list nat := seq 0 n.

(** [torch.meshgrid(a, b)] with the default indexing ("ij"): two
    tensors of [len(a)] rows and [len(b)] columns, the first constant
    along the rows and the second along the columns. *)
Definition meshgrid {A B} (a : list A) (b : list B) : list (list A) * list (list B) :=
  (map (fun x => map (fun _ => x) b) a, map (fun _ => b) a).

(** [x != y] for two tensors of the same shape. *)
Definition ne (x y : list (list nat)) : list (list bool) :=
  map (fun '(rx, ry) => map (fun '(u, v) => negb (Nat.eqb u v)) (combine rx ry))
      (combine x y).

(** The test of [!=] on two indices. *)
Definition differ (x y : nat) : bool := negb (Nat.eqb x y).

(** [x[k]] for a boolean mask [k] of the shape of [x]: the elements
    where the mask holds, row after row. *)
Definition masked {A} (x : list (list A)) (k : list (list bool)) : list A :=
  flat_map (fun '(rx, rk) => map fst (filter snd (combine rx rk))) (combine x k).

(** [x.reshape(-1)] *)
Definition reshape_flat {A} (x : list (list A)) : list A := List.concat x.

End Torch.

(** [reshape(-1)] leaves the one-dimensional [ii[k]] and [jj[k]] as they
    are. *)
Definition all_pairs_exclusive (n : nat) : list nat * list nat :=
  let '(ii, jj) := Torch.meshgrid (Torch.arange n) (Torch.arange n) in
  let k := Torch.ne ii jj in
  (Torch.masked ii k, Torch.masked jj k).

(** [flatmeshgrid(a, b)]: the call with two tensors and no keyword. *)
Definition flatmeshgrid2 {A B} (a : list A) (b : list B) : list A * list B :=
  let '(ga, gb) := Torch.meshgrid a b in
  (Torch.reshape_flat ga, Torch.reshape_flat gb).

(** * Properties *)

(** ** Strings *)

Section PyStrFacts.
Variable sep : ascii.

Lemma split_not_nil (s : string) : PyStr.split sep s <> [].
Proof.
  destruct s as [|c s]; simpl; [discriminate|].
  destruct (Ascii.eqb c sep); [discriminate|].
  destruct (PyStr.split sep s); discriminate.
Qed.

Lemma join_split (s : string) : PyStr.join sep (PyStr.split sep s) = s.
Proof.
  induction s as [|c s IH]; [reflexivity|].
  simpl PyStr.split.
  destruct (Ascii.eqb_spec c sep) as [->|_].
  - pose proof (split_not_nil s) as Hne.
    destruct (PyStr.split sep s) as [|seg segs]; [contradiction|].
    change (String sep (PyStr.join sep (seg :: segs)) = String sep s).
    now rewrite IH.
  - pose proof (split_not_nil s) as Hne.
    destruct (PyStr.split sep s) as [|seg segs]; [contradiction|].
    destruct segs as [|seg' segs].
    + simpl in *. now rewrite IH.
    + change (String c (seg ++ String sep (PyStr.join sep (seg' :: segs))) = String c s).
      f_equal. exact IH.
Qed.

Lemma length_split (s : string) :
  List.length (PyStr.split sep s) = S (PyStr.count sep s).
Proof.
  induction s as [|c s IH]; [reflexivity|]. simpl.
  destruct (Ascii.eqb c sep); simpl.
  - now rewrite IH.
  - pose proof (split_not_nil s) as Hne.
    destruct (PyStr.split sep s); [contradiction | exact IH].
Qed.

Lemma split_inj (s1 s2 : string) :
  PyStr.split sep s1 = PyStr.split sep s2 -> s1 = s2.
Proof.
  intros H. rewrite <- (join_split s1), <- (join_split s2). now rewrite H.
Qed.

End PyStrFacts.

Lemma list_eqb_eq (l1 l2 : list string) : PyStr.list_eqb l1 l2 = true <-> l1 = l2.
Proof.
  revert l2. induction l1 as [|x l1 IH]; intros [|y l2]; simpl; split;
    try discriminate; try reflexivity.
  - intros H. apply andb_true_iff in H as [Hx Hl].
    apply String.eqb_eq in Hx. apply IH in Hl. congruence.
  - intros H. injection H as -> ->. rewrite String.eqb_refl. now apply IH.
Qed.

Lemma list_eqb_refl (l : list string) : PyStr.list_eqb l l = true.
Proof. now apply list_eqb_eq. Qed.

Lemma contains_app (c : ascii) (s1 s2 : string) :
  PyStr.contains c (s1 ++ s2) = PyStr.contains c s1 || PyStr.contains c s2.
Proof.
  induction s1 as [|c1 s1 IH]; simpl; [reflexivity|].
  rewrite IH. now rewrite orb_assoc.
Qed.

(** ** Dictionaries *)

Section DictFacts.
Context {V : Type}.
Implicit Types (d : list (string * V)) (k : string).

Lemma lookup_update_same dflt k f d :
  Dict.lookup k (Dict.update dflt k f d) =
  Some (f (match Dict.lookup k d with Some v => v | None => dflt end)).
Proof.
  induction d as [|[k' v] d IH]; simpl.
  - now rewrite String.eqb_refl.
  - destruct (String.eqb k' k) eqn:E; simpl; rewrite E; [reflexivity | exact IH].
Qed.

Lemma lookup_update_other dflt k k' f d :
  k' <> k -> Dict.lookup k' (Dict.update dflt k f d) = Dict.lookup k' d.
Proof.
  intros Hne. induction d as [|[k0 v] d IH]; simpl.
  - destruct (String.eqb_spec k k'); [congruence | reflexivity].
  - destruct (String.eqb_spec k0 k) as [->|]; simpl.
    + destruct (String.eqb_spec k k'); [congruence | reflexivity].
    + now rewrite IH.
Qed.

Lemma keys_update dflt k f d :
  Dict.keys (Dict.update dflt k f d) =
  match Dict.lookup k d with
  | Some _ => Dict.keys d
  | None => (Dict.keys d ++ [k])%list
  end.
Proof.
  induction d as [|[k' v] d IH]; simpl; [reflexivity|].
  destruct (String.eqb k' k); simpl; [reflexivity|].
  change (map fst (Dict.update dflt k f d)) with (Dict.keys (Dict.update dflt k f d)).
  rewrite IH. now destruct (Dict.lookup k d).
Qed.

Lemma lookup_None_keys k d : Dict.lookup k d = None <-> ~ In k (Dict.keys d).
Proof.
  induction d as [|[k' v] d IH]; simpl; [tauto|].
  destruct (String.eqb_spec k' k) as [->|Hne].
  - split; [discriminate | tauto].
  - rewrite IH. tauto.
Qed.

Lemma lookup_Some_In k v d : Dict.lookup k d = Some v -> In (k, v) d.
Proof.
  induction d as [|[k' v'] d IH]; simpl; [discriminate|].
  destruct (String.eqb_spec k' k) as [->|Hne].
  - intros [= ->]. now left.
  - intros H. right. now apply IH.
Qed.

Lemma In_lookup_NoDup k v d :
  NoDup (Dict.keys d) -> In (k, v) d -> Dict.lookup k d = Some v.
Proof.
  induction d as [|[k' v'] d IH]; simpl; [tauto|].
  intros Hnd [Heq|Hin].
  - injection Heq as -> ->. now rewrite String.eqb_refl.
  - inversion Hnd as [|? ? Hnotin Hnd']; subst.
    destruct (String.eqb_spec k' k) as [->|Hne].
    + exfalso. apply Hnotin. change k with (fst (k, v)). now apply in_map.
    + now apply IH.
Qed.

Lemma NoDup_keys_update dflt k f d :
  NoDup (Dict.keys d) -> NoDup (Dict.keys (Dict.update dflt k f d)).
Proof.
  intros Hnd. rewrite keys_update.
  destruct (Dict.lookup k d) eqn:E; [exact Hnd|].
  apply lookup_None_keys in E.
  apply NoDup_rev in Hnd. rewrite <- (rev_involutive (_ ++ _)%list).
  apply NoDup_rev. rewrite rev_app_distr. simpl. constructor; [|exact Hnd].
  now rewrite <- in_rev.
Qed.

End DictFacts.

(** The keys of the recorder stay distinct when a sample is appended. *)
Lemma record_sample_keys_distinct name elapsed w :
  NoDup (Dict.keys (all_times w)) ->
  NoDup (Dict.keys (all_times (snd (record_sample name elapsed w)))).
Proof. intros H. simpl. now apply NoDup_keys_update. Qed.

(** ** The tree *)

Lemma _Node_ind (P : _Node -> Prop) :
  (forall ts cs, Forall (fun kc => P (snd kc)) cs -> P (mkNode ts cs)) ->
  forall n, P n.
Proof.
  intros step. fix IH 1. intros [ts cs]. apply step.
  induction cs as [|[k c] cs IHcs]; constructor; [apply IH | exact IHcs].
Qed.

Lemma distinct_children_unfold ts cs :
  distinct_children (mkNode ts cs) <->
  NoDup (Dict.keys cs) /\ Forall (fun kc => distinct_children (snd kc)) cs.
Proof.
  simpl. apply and_iff_compat_l.
  induction cs as [|[k c] cs IH]; simpl.
  - split; [constructor | trivial].
  - rewrite IH. split.
    + intros [Hc Hcs]. now constructor.
    + intros H. inversion H; subst. now split.
Qed.

Lemma visits_unfold path ts cs :
  visits path (mkNode ts cs) =
  (path, mkNode ts cs) ::
  flat_map (fun '(child_name, child) => visits (path ++ [child_name])%list child) cs.
Proof. reflexivity. Qed.

Lemma Forall_update {V} (P : V -> Prop) dflt k (f : V -> V) (d : list (string * V)) :
  (forall v, P v -> P (f v)) -> P dflt ->
  Forall (fun kv => P (snd kv)) d ->
  Forall (fun kv => P (snd kv)) (Dict.update dflt k f d).
Proof.
  intros Hf Hd. induction 1 as [|[k' v] d Hv Hrest IH]; simpl.
  - constructor; [now apply Hf | constructor].
  - destruct (String.eqb k' k); constructor; simpl in *; auto.
Qed.

Lemma distinct_children_new_node : distinct_children new_node.
Proof. simpl. split; [constructor | trivial]. Qed.

Lemma distinct_children_extend parts values n :
  distinct_children n -> distinct_children (extend parts values n).
Proof.
  revert n. induction parts as [|part rest IH]; intros [ts cs] H.
  - exact H.
  - simpl extend. apply distinct_children_unfold in H as [Hnd Hall].
    apply distinct_children_unfold. split.
    + now apply NoDup_keys_update.
    + apply Forall_update; auto using distinct_children_new_node.
Qed.

Lemma build_tree_from_distinct times root :
  distinct_children root ->
  distinct_children
    (fold_left (fun root '(fullname, lst) => extend (PyStr.split "." fullname) lst root)
               times root).
Proof.
  revert root. induction times as [|[name lst] times IH]; intros root H; simpl.
  - exact H.
  - apply IH. now apply distinct_children_extend.
Qed.

Lemma distinct_children_build_tree times : distinct_children (build_tree times).
Proof. apply build_tree_from_distinct, distinct_children_new_node. Qed.

(** *** Where [extend] puts the samples *)

Lemma self_times_at_new_node path : self_times_at path new_node = [].
Proof. destruct path; reflexivity. Qed.

Lemma self_times_at_extend parts values path n :
  self_times_at path (extend parts values n) =
  (self_times_at path n ++ if PyStr.list_eqb parts path then values else [])%list.
Proof.
  revert path n. induction parts as [|part rest IH]; intros path [ts cs].
  - destruct path as [|seg prest]; simpl.
    + reflexivity.
    + unfold self_times_at. simpl. now rewrite app_nil_r.
  - destruct path as [|seg prest].
    + unfold self_times_at. simpl. now rewrite app_nil_r.
    + unfold self_times_at. simpl node_at. simpl PyStr.list_eqb.
      destruct (String.eqb_spec part seg) as [->|Hne].
      * rewrite lookup_update_same. simpl andb.
        fold (self_times_at prest (extend rest values
               (match Dict.lookup seg cs with Some v => v | None => new_node end))).
        rewrite IH. destruct (Dict.lookup seg cs) as [child|].
        -- reflexivity.
        -- now rewrite self_times_at_new_node.
      * rewrite lookup_update_other by congruence. simpl andb.
        now rewrite app_nil_r.
Qed.

Lemma self_times_at_fold times path root :
  self_times_at path
    (fold_left (fun root '(fullname, lst) => extend (PyStr.split "." fullname) lst root)
               times root) =
  (self_times_at path root ++ samples_recorded_at path times)%list.
Proof.
  revert root. induction times as [|[name lst] times IH]; intros root.
  - unfold samples_recorded_at. simpl. now rewrite app_nil_r.
  - simpl fold_left. rewrite IH, self_times_at_extend.
    unfold samples_recorded_at. simpl.
    destruct (PyStr.list_eqb (PyStr.split "." name) path); simpl.
    + now rewrite app_assoc.
    + now rewrite app_nil_r.
Qed.

Lemma self_times_at_build_tree times path :
  self_times_at path (build_tree times) = samples_recorded_at path times.
Proof.
  unfold build_tree. rewrite self_times_at_fold.
  now rewrite self_times_at_new_node.
Qed.

(** *** Which nodes [extend] creates *)

Lemma node_at_extend_mono parts values path n m :
  node_at path n = Some m ->
  exists m', node_at path (extend parts values n) = Some m'.
Proof.
  revert path n m. induction parts as [|part rest IH]; intros path [ts cs] m H.
  - destruct path as [|seg prest]; simpl in *; eauto.
  - destruct path as [|seg prest]; simpl in *; [eauto|].
    destruct (String.eqb_spec part seg) as [->|Hne].
    + rewrite lookup_update_same.
      destruct (Dict.lookup seg cs) as [child|]; [|discriminate].
      eapply IH; eassumption.
    + rewrite lookup_update_other by congruence.
      destruct (Dict.lookup seg cs) as [child|]; [eauto | discriminate].
Qed.

Lemma node_at_extend_prefix parts values n k :
  exists m, node_at (firstn k parts) (extend parts values n) = Some m.
Proof.
  revert n k. induction parts as [|part rest IH]; intros [ts cs] k.
  - rewrite firstn_nil. simpl. eauto.
  - destruct k as [|k]; simpl; [eauto|].
    rewrite lookup_update_same. apply IH.
Qed.

Lemma node_at_fold_mono times path root m :
  node_at path root = Some m ->
  exists m',
    node_at path
      (fold_left (fun root '(fullname, lst) => extend (PyStr.split "." fullname) lst root)
                 times root) = Some m'.
Proof.
  revert root m. induction times as [|[name lst] times IH]; intros root m H; simpl.
  - eauto.
  - destruct (node_at_extend_mono (PyStr.split "." name) lst path root m H) as [m' Hm'].
    eapply IH; eassumption.
Qed.

Lemma node_at_fold_prefix times root name lst k :
  In (name, lst) times ->
  exists m,
    node_at (firstn k (PyStr.split "." name))
      (fold_left (fun root '(fullname, lst) => extend (PyStr.split "." fullname) lst root)
                 times root) = Some m.
Proof.
  revert root. induction times as [|[name' lst'] times IH]; intros root Hin; simpl.
  - destruct Hin.
  - destruct Hin as [Heq|Hin].
    + injection Heq as -> ->.
      destruct (node_at_extend_prefix (PyStr.split "." name) lst root k) as [m Hm].
      eapply node_at_fold_mono; eassumption.
    + now apply IH.
Qed.

(** *** The nodes [_print_exclusive] visits *)

Lemma node_at_In_visits q root pre n :
  node_at q root = Some n -> In ((pre ++ q)%list, n) (visits pre root).
Proof.
  revert root pre. induction q as [|seg rest IH]; intros [ts cs] pre H.
  - simpl in H. injection H as <-. rewrite app_nil_r, visits_unfold. now left.
  - simpl in H. destruct (Dict.lookup seg cs) as [child|] eqn:E; [|discriminate].
    rewrite visits_unfold. right. apply in_flat_map.
    exists (seg, child). split; [now apply lookup_Some_In|].
    simpl. specialize (IH child (pre ++ [seg])%list H).
    now rewrite <- app_assoc in IH.
Qed.

Lemma visits_In_node_at root :
  distinct_children root ->
  forall pre p n, In (p, n) (visits pre root) ->
  exists q, p = (pre ++ q)%list /\ node_at q root = Some n.
Proof.
  induction root as [ts cs IH] using _Node_ind. intros Hd pre p n Hin.
  apply distinct_children_unfold in Hd as [Hnd Hall].
  rewrite visits_unfold in Hin. destruct Hin as [Heq|Hin].
  - injection Heq as <- <-. exists []. now rewrite app_nil_r.
  - apply in_flat_map in Hin as [[k c] [Hkc Hin]]. simpl in Hin.
    rewrite Forall_forall in IH, Hall.
    destruct (IH _ Hkc (Hall _ Hkc) _ _ _ Hin) as [q [-> Hq]].
    exists (k :: q). split; [now rewrite <- app_assoc|].
    simpl. now rewrite (In_lookup_NoDup k c cs Hnd Hkc).
Qed.

(** *** What [_print_exclusive] prints *)

Lemma emit_nil w : emit [] w = w.
Proof. destruct w. unfold emit. simpl. now rewrite app_nil_r. Qed.

Lemma emit_app l1 l2 w : emit l2 (emit l1 w) = emit (l1 ++ l2)%list w.
Proof. unfold emit. simpl. now rewrite app_assoc. Qed.

Lemma visit_name_snoc path name : visit_name (path ++ [name])%list = name.
Proof. apply last_last. Qed.

Lemma visit_indent_snoc path name :
  visit_indent (path ++ [name])%list = visit_indent path + 1.
Proof. unfold visit_indent. rewrite length_app. reflexivity. Qed.

Lemma printed_lines_app vs1 vs2 :
  printed_lines (vs1 ++ vs2)%list = (printed_lines vs1 ++ printed_lines vs2)%list.
Proof. unfold printed_lines. now rewrite filter_app, map_app. Qed.

Lemma for_items_cons {V} k (v : V) d body :
  for_items ((k, v) :: d) body = (body k v ;; for_items d body).
Proof. reflexivity. Qed.

Lemma _print_exclusive_spec node :
  forall path w,
    _print_exclusive node (visit_name path) (visit_indent path) w =
    (Ok tt, emit (printed_lines (visits path node)) w).
Proof.
  induction node as [ts cs IH] using _Node_ind. intros path w.
  rewrite visits_unfold.
  change (printed_lines ((path, mkNode ts cs) :: ?l))
    with (printed_lines ([(path, mkNode ts cs)] ++ l)%list).
  rewrite printed_lines_app, <- emit_app.
  cbn [_print_exclusive]. unfold bind at 1.
  assert (Hown :
    (if PyStr.truthy (visit_name path)
     then
       avg <- (match List.length (self_times (mkNode ts cs)) with
               | O => ret 0%float
               | S _ => truediv (PyFloat.sum (self_times (mkNode ts cs)))
                                (List.length (self_times (mkNode ts cs)))
               end) ;;
       print (node_line (PyStr.repeat "    " (visit_indent path)) (visit_name path)
                        (PyFloat.sum (self_times (mkNode ts cs)))
                        (List.length (self_times (mkNode ts cs))) avg)
     else ret tt) w =
    (Ok tt, emit (printed_lines [(path, mkNode ts cs)]) w)).
  { unfold printed_lines, visit_printed. simpl filter. simpl fst.
    destruct (PyStr.truthy (visit_name path)).
    - simpl map. unfold visit_line, node_avg, node_count, node_total.
      simpl fst. simpl snd.
      destruct (List.length (self_times (mkNode ts cs))) eqn:E; reflexivity.
    - simpl. unfold ret. now rewrite emit_nil. }
  rewrite Hown. clear Hown.
  generalize (emit (printed_lines [(path, mkNode ts cs)]) w). clear w.
  induction cs as [|[k c] cs IHcs]; intros w.
  - simpl. unfold ret. now rewrite emit_nil.
  - inversion IH as [|? ? Hc Hcs]; subst. simpl in Hc.
    simpl flat_map. rewrite printed_lines_app, <- emit_app.
    rewrite for_items_cons. unfold bind at 1.
    assert (Hcall :
      _print_exclusive c k (visit_indent path + 1) w =
      (Ok tt, emit (printed_lines (visits (path ++ [k]) c)) w)).
    { rewrite <- (visit_name_snoc path k) at 1.
      rewrite <- (visit_indent_snoc path k). apply Hc. }
    rewrite Hcall. apply (IHcs Hcs).
Qed.

Lemma print_timing_summary_spec w :
  print_timing_summary w = (Ok tt, emit (report (all_times w)) w).
Proof.
  unfold print_timing_summary, report, bind, get_all_times.
  change (print (String "010" "=== timing summary ===") w)
    with (Ok tt, emit [header] w).
  cbv iota beta zeta.
  change (_print_exclusive (build_tree (all_times w)) "" 0)
    with (_print_exclusive (build_tree (all_times w)) (visit_name []) (visit_indent [])).
  rewrite _print_exclusive_spec.
  now rewrite emit_app.
Qed.

Lemma node_at_app p q root :
  node_at (p ++ q)%list root =
  match node_at p root with
  | Some n => node_at q n
  | None => None
  end.
Proof.
  revert root. induction p as [|seg p IH]; intros root; simpl; [reflexivity|].
  destruct (Dict.lookup seg (children root)); [apply IH | reflexivity].
Qed.

Lemma distinct_children_node_at path root n :
  distinct_children root -> node_at path root = Some n -> distinct_children n.
Proof.
  revert root. induction path as [|seg rest IH]; intros [ts cs] Hd H.
  - simpl in H. now injection H as <-.
  - simpl in H. destruct (Dict.lookup seg cs) as [child|] eqn:E; [|discriminate].
    apply distinct_children_unfold in Hd as [_ Hall].
    rewrite Forall_forall in Hall.
    apply (IH child); [|exact H].
    exact (Hall _ (lookup_Some_In _ _ _ E)).
Qed.

Lemma distinct_children_once n k child :
  distinct_children n -> Dict.lookup k (children n) = Some child ->
  count_occ string_dec (Dict.keys (children n)) k = 1.
Proof.
  destruct n as [ts cs]. intros Hd Hk.
  apply distinct_children_unfold in Hd as [Hnd _]. simpl in *.
  apply NoDup_count_occ'; [exact Hnd|].
  apply lookup_Some_In in Hk. change k with (fst (k, child)). now apply in_map.
Qed.

(** *** The samples of one name *)

Lemma node_at_self_times path root n :
  node_at path root = Some n -> self_times_at path root = self_times n.
Proof. unfold self_times_at. now intros ->. Qed.

Lemma samples_recorded_at_cons name lst times path :
  samples_recorded_at path ((name, lst) :: times) =
  ((if PyStr.list_eqb (PyStr.split "." name) path then lst else []) ++
   samples_recorded_at path times)%list.
Proof.
  unfold samples_recorded_at. simpl.
  now destruct (PyStr.list_eqb (PyStr.split "." name) path).
Qed.

Lemma samples_recorded_at_root times : samples_recorded_at [] times = [].
Proof.
  induction times as [|[name lst] times IH]; [reflexivity|].
  rewrite samples_recorded_at_cons, IH.
  pose proof (split_not_nil "." name) as Hne.
  now destruct (PyStr.split "." name).
Qed.

Lemma split_eqb_name name name' :
  PyStr.list_eqb (PyStr.split "." name') (PyStr.split "." name) = true <-> name' = name.
Proof.
  rewrite list_eqb_eq. split; [apply split_inj | now intros ->].
Qed.

Lemma samples_recorded_at_absent name times :
  ~ In name (Dict.keys times) ->
  samples_recorded_at (PyStr.split "." name) times = [].
Proof.
  induction times as [|[name' lst'] times IH]; intros Hnot; [reflexivity|].
  rewrite samples_recorded_at_cons. simpl in Hnot.
  destruct (PyStr.list_eqb (PyStr.split "." name') (PyStr.split "." name)) eqn:E.
  - apply split_eqb_name in E. tauto.
  - simpl. apply IH. tauto.
Qed.

Lemma samples_recorded_at_incl name lst times :
  In (name, lst) times ->
  incl lst (samples_recorded_at (PyStr.split "." name) times).
Proof.
  induction times as [|[name' lst'] times IH]; intros Hin; [destruct Hin|].
  rewrite samples_recorded_at_cons. destruct Hin as [Heq|Hin].
  - injection Heq as -> ->. rewrite list_eqb_refl. now apply incl_appl, incl_refl.
  - now apply incl_appr, IH.
Qed.

Lemma samples_recorded_at_unique name lst times :
  NoDup (Dict.keys times) -> In (name, lst) times ->
  samples_recorded_at (PyStr.split "." name) times = lst.
Proof.
  induction times as [|[name' lst'] times IH]; intros Hnd Hin; [destruct Hin|].
  simpl in Hnd. inversion Hnd as [|? ? Hnotin Hnd']; subst.
  rewrite samples_recorded_at_cons. destruct Hin as [Heq|Hin].
  - injection Heq as -> ->. rewrite list_eqb_refl.
    rewrite samples_recorded_at_absent by exact Hnotin. now rewrite app_nil_r.
  - destruct (PyStr.list_eqb (PyStr.split "." name') (PyStr.split "." name)) eqn:E.
    + apply split_eqb_name in E. subst name'. exfalso. apply Hnotin.
      change name with (fst (name, lst)). now apply in_map.
    + simpl. now apply IH.
Qed.

Lemma node_at_build_tree_name times name lst :
  In (name, lst) times ->
  exists m, node_at (PyStr.split "." name) (build_tree times) = Some m.
Proof.
  intros Hin.
  destruct (node_at_fold_prefix times new_node name lst
              (List.length (PyStr.split "." name)) Hin) as [m Hm].
  rewrite firstn_all in Hm. now exists m.
Qed.

Lemma node_at_new_node path m : node_at path new_node = Some m -> path = [].
Proof. destruct path; [reflexivity | discriminate]. Qed.

Lemma node_at_extend_inv parts values path n m :
  node_at path (extend parts values n) = Some m ->
  (exists m0, node_at path n = Some m0) \/ (exists rest, parts = (path ++ rest)%list).
Proof.
  revert path n m. induction parts as [|part rest IH]; intros path [ts cs] m H.
  - destruct path as [|seg prest]; simpl in *; left; eauto.
  - destruct path as [|seg prest]; [left; simpl; eauto|].
    simpl in H. destruct (String.eqb_spec part seg) as [->|Hne].
    + rewrite lookup_update_same in H.
      destruct (IH _ _ _ H) as [[m0 Hm0]|[r ->]].
      * destruct (Dict.lookup seg cs) as [c|] eqn:E.
        -- left. exists m0. simpl. now rewrite E.
        -- apply node_at_new_node in Hm0. subst prest. right. now exists rest.
      * right. now exists r.
    + rewrite lookup_update_other in H by congruence.
      left. exists m. exact H.
Qed.

Lemma node_at_fold_inv times root path m :
  node_at path
    (fold_left (fun root '(fullname, lst) => extend (PyStr.split "." fullname) lst root)
               times root) = Some m ->
  (exists m0, node_at path root = Some m0) \/
  (exists name lst rest,
     In (name, lst) times /\ PyStr.split "." name = (path ++ rest)%list).
Proof.
  revert root. induction times as [|[name lst] times IH]; intros root H; simpl in H.
  - left. eauto.
  - destruct (IH _ H) as [[m0 Hm0]|(name' & lst' & rest & Hin & Hsplit)].
    + destruct (node_at_extend_inv _ _ _ _ _ Hm0) as [Hroot|[rest Hrest]].
      * now left.
      * right. exists name, lst, rest. split; [now left | exact Hrest].
    + right. exists name', lst', rest. split; [now right | exact Hsplit].
Qed.

Lemma node_at_build_tree_iff times path :
  (exists n, node_at path (build_tree times) = Some n) <->
  path = [] \/
  (exists name lst rest,
     In (name, lst) times /\ PyStr.split "." name = (path ++ rest)%list).
Proof.
  split.
  - intros [n Hn]. destruct (node_at_fold_inv _ _ _ _ Hn) as [[m0 Hm0]|H].
    + left. now apply node_at_new_node in Hm0.
    + now right.
  - intros [->|(name & lst & rest & Hin & Hsplit)].
    + simpl. eauto.
    + destruct (node_at_fold_prefix times new_node name lst (List.length path) Hin)
        as [m Hm].
      rewrite Hsplit, firstn_app, firstn_all, Nat.sub_diag in Hm.
      simpl in Hm. rewrite app_nil_r in Hm. now exists m.
Qed.

(** *** The recursion limit *)

Lemma update_with_current {V} dflt k (f : V -> V) (d : list (string * V)) :
  Dict.update dflt k
    (fun _ => f (match Dict.lookup k d with Some v => v | None => dflt end)) d =
  Dict.update dflt k f d.
Proof.
  induction d as [|[k' v] d IH]; simpl; [reflexivity|].
  destruct (String.eqb k' k); [reflexivity | now rewrite IH].
Qed.

Lemma extend_limited_spec frames parts values n :
  extend_limited frames parts values n =
  if Nat.ltb (List.length parts) frames then Ok (extend parts values n)
  else Raise RecursionError.
Proof.
  revert parts n. induction frames as [|frames IH]; intros parts n; [reflexivity|].
  destruct parts as [|part rest]; [reflexivity|].
  simpl extend_limited. rewrite IH.
  change (Nat.ltb (List.length (part :: rest)) (S frames))
    with (Nat.ltb (List.length rest) frames).
  destruct (Nat.ltb (List.length rest) frames); [|reflexivity].
  simpl extend. now rewrite update_with_current.
Qed.

Lemma build_tree_limited_fold_raise frames times :
  fold_left
    (fun acc '(fullname, lst) =>
       match acc with
       | Ok root => extend_limited frames (PyStr.split "." fullname) lst root
       | Raise e => Raise e
       end)
    times (Raise RecursionError) = Raise RecursionError.
Proof. induction times as [|[name lst] times IH]; simpl; [reflexivity | exact IH]. Qed.

Lemma build_tree_limited_fold_ok frames times root :
  (forall name lst, In (name, lst) times ->
     List.length (PyStr.split "." name) < frames) ->
  fold_left
    (fun acc '(fullname, lst) =>
       match acc with
       | Ok root => extend_limited frames (PyStr.split "." fullname) lst root
       | Raise e => Raise e
       end)
    times (Ok root) =
  Ok (fold_left (fun root '(fullname, lst) => extend (PyStr.split "." fullname) lst root)
                times root).
Proof.
  revert root. induction times as [|[name lst] times IH]; intros root H; simpl;
    [reflexivity|].
  rewrite extend_limited_spec.
  destruct (Nat.ltb_spec (List.length (PyStr.split "." name)) frames) as [_|Hge].
  - apply IH. intros name' lst' Hin. apply (H name' lst'). now right.
  - specialize (H name lst (or_introl eq_refl)). lia.
Qed.

Lemma build_tree_limited_fold_long frames times root name lst :
  In (name, lst) times -> frames <= List.length (PyStr.split "." name) ->
  fold_left
    (fun acc '(fullname, lst) =>
       match acc with
       | Ok root => extend_limited frames (PyStr.split "." fullname) lst root
       | Raise e => Raise e
       end)
    times (Ok root) = Raise RecursionError.
Proof.
  intros Hin Hlong. revert root.
  induction times as [|[name' lst'] times IH]; intros root; [destruct Hin|].
  simpl. rewrite extend_limited_spec.
  destruct (Nat.ltb_spec (List.length (PyStr.split "." name')) frames) as [Hlt|_].
  - destruct Hin as [Heq|Hin]; [injection Heq as -> _; lia | now apply IH].
  - apply build_tree_limited_fold_raise.
Qed.

Lemma for_items_ext_in {V} (d : list (string * V)) body1 body2 w :
  (forall k v w', In (k, v) d -> body1 k v w' = body2 k v w') ->
  for_items d body1 w = for_items d body2 w.
Proof.
  revert w. induction d as [|[k v] d IH]; intros w H; [reflexivity|].
  rewrite !for_items_cons. unfold bind.
  rewrite (H k v w (or_introl eq_refl)).
  destruct (body2 k v w) as [[u|e] w']; [|reflexivity].
  apply IH. intros k' v' w'' Hin. apply H. now right.
Qed.

Lemma _print_exclusive_limited_enough node :
  forall frames pre name indent w,
    (forall p m, In (p, m) (visits pre node) ->
       List.length p < List.length pre + frames) ->
    _print_exclusive_limited frames node name indent w =
    _print_exclusive node name indent w.
Proof.
  induction node as [ts cs IH] using _Node_ind.
  intros frames pre name indent w Hdepth.
  destruct frames as [|frames].
  { specialize (Hdepth pre (mkNode ts cs)). rewrite visits_unfold in Hdepth.
    specialize (Hdepth (or_introl eq_refl)). lia. }
  cbn [_print_exclusive_limited _print_exclusive]. unfold bind at 1 3.
  match goal with |- (let (_, _) := ?own in _) = _ => destruct own as [[u|e] w1] end;
    [|reflexivity].
  apply for_items_ext_in. intros k c w' Hin.
  rewrite Forall_forall in IH.
  apply (IH (k, c) Hin frames (pre ++ [k])%list).
  intros p m Hp. rewrite length_app. simpl.
  assert (Hlt : List.length p < List.length pre + S frames); [|lia].
  apply (Hdepth p m). rewrite visits_unfold. right.
  apply in_flat_map. exists (k, c). now split.
Qed.

Lemma print_timing_summary_limited_enough frames w :
  0 < frames ->
  (forall name lst, In (name, lst) (all_times w) ->
     List.length (PyStr.split "." name) < frames) ->
  build_tree_limited frames (all_times w) = Ok (build_tree (all_times w)) /\
  print_timing_summary_limited frames w = print_timing_summary w.
Proof.
  intros Hpos Hshort.
  assert (Hbuild :
    build_tree_limited frames (all_times w) = Ok (build_tree (all_times w))).
  { unfold build_tree_limited, new_node_limited.
    destruct frames as [|frames]; [lia|].
    now apply build_tree_limited_fold_ok. }
  split; [exact Hbuild|].
  unfold print_timing_summary_limited, print_timing_summary, bind, get_all_times.
  rewrite Hbuild. cbv beta iota zeta.
  destruct (print (String "010" "=== timing summary ===") w) as [[u|e] w1];
    [|reflexivity].
  apply (_print_exclusive_limited_enough _ frames []).
  intros p m Hin. simpl.
  destruct (visits_In_node_at _ (distinct_children_build_tree (all_times w))
              [] p m Hin) as [q [-> Hq]]. simpl.
  destruct (proj1 (node_at_build_tree_iff (all_times w) q) (ex_intro _ m Hq))
    as [->|(name & lst & rest & Hname & Hs)]; [exact Hpos|].
  specialize (Hshort name lst Hname). rewrite Hs, length_app in Hshort. lia.
Qed.

Lemma print_timing_summary_limited_long frames w name lst :
  In (name, lst) (all_times w) ->
  frames <= List.length (PyStr.split "." name) ->
  print_timing_summary_limited frames w = (Raise RecursionError, w).
Proof.
  intros Hin Hlong.
  unfold print_timing_summary_limited, bind, get_all_times.
  assert (Hbuild : build_tree_limited frames (all_times w) = Raise RecursionError).
  { unfold build_tree_limited, new_node_limited. destruct frames as [|frames].
    - apply build_tree_limited_fold_raise.
    - now apply (build_tree_limited_fold_long _ _ _ name lst). }
  now rewrite Hbuild.
Qed.

Local Open Scope float_scope.

(** *** The nodes with a printed line *)

Lemma truthy_true (s : string) : PyStr.truthy s = true <-> s <> "".
Proof. destruct s; simpl; split; intros; congruence. Qed.

Lemma In_printed_visits times path n :
  In (path, n) (filter visit_printed (visits [] (build_tree times))) <->
  node_at path (build_tree times) = Some n /\ last path "" <> "".
Proof.
  rewrite filter_In. unfold visit_printed, visit_name. simpl fst.
  rewrite truthy_true. apply and_iff_compat_r. split.
  - intros Hin.
    destruct (visits_In_node_at _ (distinct_children_build_tree times) [] path n Hin)
      as [q [-> Hq]]. exact Hq.
  - apply (node_at_In_visits path (build_tree times) []).
Qed.

Lemma visit_line_eq path n :
  visit_line (path, n) =
  node_line (PyStr.repeat "    " (List.length path)) (last path "")
            (PyFloat.sum (self_times n)) (List.length (self_times n))
            (if Nat.eqb (List.length (self_times n)) 0 then 0
             else PyFloat.sum (self_times n) / PyFloat.of_nat (List.length (self_times n))).
Proof.
  unfold visit_line, node_avg, node_total, node_count, visit_indent, visit_name.
  simpl fst. simpl snd. now destruct (List.length (self_times n)).
Qed.

(** ** The Timer *)

(** An enabled scope asks the device for two events, records them
    around the body, waits, and appends the elapsed time under its
    name. *)
Lemma enabled_scope_records device name (w : World) :
  let ev := List.length (cuda w) in
  let calls :=
    (cuda w ++ [EventCreate ev; EventCreate (S ev); EventRecord ev;
                EventRecord (S ev); Synchronize])%list in
  Timer.with_timer device name true (ret tt) w =
  (Ok tt,
   mkWorld (Dict.update [] name (fun l => l ++ [device calls ev (S ev)])%list
                        (all_times w))
           (stdout w)
           (calls ++ [ElapsedTime ev (S ev)])%list).
Proof.
  unfold Timer.with_timer, Timer.__init__, Timer.__enter__, Timer.__exit__,
    Timer.new_event, Timer.elapsed_time, Timer.getattr, cuda_call, record_sample,
    bind, ret.
  simpl. rewrite !length_app. simpl. rewrite Nat.add_1_r.
  rewrite <- !app_assoc. simpl. reflexivity.
Qed.

(** * The claims of the specification *)

(** C1: after the tree is built from any recorder state, the self
    samples of a node are exactly the sample lists, concatenated in
    recorder order, of the names whose split on "." is the path from the
    root to that node; the count and the line printed for the node are
    those of these samples alone, and the line is in the report when the
    name of the node is not empty. The samples of a name that continues
    below the node are in the descendant at the end of its path. *)
Theorem C1_self_samples_exact_path (times : Recorder) (path : list string) (n : _Node) :
  node_at path (build_tree times) = Some n ->
  self_times n = samples_recorded_at path times /\
  node_count n = List.length (samples_recorded_at path times) /\
  visit_line (path, n) =
    node_line (PyStr.repeat "    " (List.length path)) (last path "")
              (PyFloat.sum (samples_recorded_at path times))
              (List.length (samples_recorded_at path times))
              (node_avg n) /\
  (last path "" <> "" ->
   forall out dev, exists printed,
     print_timing_summary (mkWorld times out dev) =
       (Ok tt, mkWorld times (out ++ printed)%list dev) /\
     In (visit_line (path, n)) printed) /\
  (forall name lst rest,
     In (name, lst) times -> PyStr.split "." name = (path ++ rest)%list ->
     exists m, node_at rest n = Some m /\
               self_times m = samples_recorded_at (path ++ rest)%list times /\
               incl lst (self_times m)).
Proof.
  intros Hn.
  assert (Hself : self_times n = samples_recorded_at path times).
  { rewrite <- (node_at_self_times _ _ _ Hn). apply self_times_at_build_tree. }
  split; [exact Hself|]. split; [unfold node_count; now rewrite Hself|].
  split.
  { unfold visit_line, node_total, node_count, visit_indent, visit_name. simpl.
    now rewrite Hself. }
  split.
  { intros Hname out dev. exists (report times).
    split; [apply (print_timing_summary_spec (mkWorld times out dev))|].
    right. apply in_map. apply In_printed_visits. now split. }
  intros name lst rest Hin Hsplit.
  destruct (node_at_build_tree_name times name lst Hin) as [m Hm].
  assert (Hm' : self_times m = samples_recorded_at (PyStr.split "." name) times).
  { rewrite <- (node_at_self_times _ _ _ Hm). apply self_times_at_build_tree. }
  exists m. rewrite Hsplit, node_at_app, Hn in Hm.
  split; [exact Hm|]. split.
  - now rewrite <- Hsplit.
  - rewrite Hm'. now apply samples_recorded_at_incl.
Qed.

Lemma C1_witness :
  let times := [("stage1.sub", [10; 20]); ("stage1", [5])] in
  let n := mkNode [5] [("sub", mkNode [10; 20] [])] in
  node_at ["stage1"] (build_tree times) = Some n /\
  self_times n = [5] /\
  node_count n = 1%nat /\
  exists m, node_at ["sub"] n = Some m /\ self_times m = [10; 20].
Proof.
  intros times n.
  assert (Hn : node_at ["stage1"] (build_tree times) = Some n) by reflexivity.
  split; [exact Hn|].
  destruct (C1_self_samples_exact_path times ["stage1"] n Hn)
    as [Hself [Hcount [_ [_ Hdeep]]]].
  split; [exact Hself|]. split; [exact Hcount|].
  destruct (Hdeep "stage1.sub" [10; 20] ["sub"]) as [m [Hm [Hs _]]];
    [now left | reflexivity |].
  exists m. split; [exact Hm | exact Hs].
Defined.

(** C2: with [10.0, 20.0] recorded under "stage1.sub" and [5.0] under
    "stage1", the report has a node "stage1" with total 5.0, count 1 and
    average 5.0, and its child "sub" has total 30.0, count 2 and average
    15.0; the same holds when "stage1" was recorded first. *)
Theorem C2_stage1_scenario (out : list string) (dev : list CudaCall) :
  let times := [("stage1.sub", [10; 20]); ("stage1", [5])] in
  let times' := [("stage1", [5]); ("stage1.sub", [10; 20])] in
  let printed :=
    [String "010" "=== timing summary ===";
     "    stage1          total 5 ms   1 runs   avg 5.00 ms";
     "        sub             total 30 ms   2 runs   avg 15.00 ms"] in
  print_timing_summary (mkWorld times out dev) =
    (Ok tt, mkWorld times (out ++ printed) dev) /\
  print_timing_summary (mkWorld times' out dev) =
    (Ok tt, mkWorld times' (out ++ printed) dev) /\
  build_tree times' = build_tree times /\
  exists stage1 sub,
    children (build_tree times) = [("stage1", stage1)] /\
    children stage1 = [("sub", sub)] /\
    children sub = [] /\
    node_total stage1 = 5 /\ node_count stage1 = 1%nat /\ node_avg stage1 = 5 /\
    node_total sub = 30 /\ node_count sub = 2%nat /\ node_avg sub = 15.
Proof.
  intros times times' printed.
  split; [now rewrite print_timing_summary_spec|].
  split; [now rewrite print_timing_summary_spec|].
  split; [reflexivity|].
  exists (mkNode [5] [("sub", mkNode [10; 20] [])]), (mkNode [10; 20] []).
  repeat split; reflexivity.
Qed.

(** C3, as the code has it: the root has no self samples, whatever was
    recorded; the empty name splits into the one empty segment, so that
    its samples are among the self samples of the child of the root
    named "", and are all of them when the names of the recorder are
    distinct. *)
Theorem C3_empty_name_child (times : Recorder) :
  self_times (build_tree times) = [] /\
  PyStr.split "." "" = [""] /\
  (forall lst,
     In ("", lst) times ->
     exists child,
       Dict.lookup "" (children (build_tree times)) = Some child /\
       incl lst (self_times child) /\
       (NoDup (Dict.keys times) -> self_times child = lst)).
Proof.
  split; [|split; [reflexivity|]].
  - change (self_times (build_tree times)) with (self_times_at [] (build_tree times)).
    rewrite self_times_at_build_tree. apply samples_recorded_at_root.
  - intros lst Hin.
    destruct (node_at_build_tree_name times "" lst Hin) as [m Hm].
    pose proof (node_at_self_times _ _ _ Hm) as Hself.
    rewrite self_times_at_build_tree in Hself.
    simpl in Hm.
    destruct (Dict.lookup "" (children (build_tree times))) as [child|];
      [|discriminate].
    injection Hm as ->. exists m. split; [reflexivity|]. split.
    + rewrite <- Hself. now apply (samples_recorded_at_incl "" lst times).
    + intros Hnd. rewrite <- Hself.
      now apply (samples_recorded_at_unique "" lst times).
Qed.

Lemma C3_witness :
  let times := [("a", [2]); ("", [1; 3])] in
  (NoDup (Dict.keys times) /\ In ("", [1; 3]) times) /\
  self_times (build_tree times) = [] /\
  exists child,
    Dict.lookup "" (children (build_tree times)) = Some child /\
    self_times child = [1; 3].
Proof.
  intros times.
  assert (Hnd : NoDup (Dict.keys times)).
  { repeat constructor; simpl; intuition discriminate. }
  assert (Hin : In ("", [1; 3]) times) by (right; left; reflexivity).
  split; [now split|].
  destruct (C3_empty_name_child times) as [Hroot [_ Hchild]].
  split; [exact Hroot|].
  destruct (Hchild [1; 3] Hin) as (child & Hlook & _ & Hself).
  exists child. split; [exact Hlook | exact (Hself Hnd)].
Defined.

(** C3, as stated, fails: with [1.0] recorded under the empty name, the
    root has no self samples, and the sample is in a child. *)
Lemma C3_counterexample :
  let times := [("", [1])] in
  In ("", [1]) times /\
  ~ incl [1] (self_times (build_tree times)) /\
  self_times (build_tree times) = [] /\
  children (build_tree times) = [("", mkNode [1] [])].
Proof.
  intros times. split; [now left|]. split.
  - intros H. exact (H 1 (or_introl eq_refl)).
  - split; reflexivity.
Qed.

(** C4, as the code has it: the report is the header text, a newline
    followed by "=== timing summary ===", and then one line for every
    node with a non-empty name, in the order of the traversal: four
    spaces for every segment of its path, the name padded to 15
    characters, ONE SPACE, and the total with no decimals, the count, and
    the average with two decimals, worded as below. *)
Theorem C4_line_format (w : World) :
  exists printed : list (list string * _Node),
    print_timing_summary w =
    (Ok tt,
     mkWorld (all_times w)
       (stdout w ++
        String "010" "=== timing summary ===" ::
        map (fun '(path, node) =>
               let total := PyFloat.sum (self_times node) in
               let count := List.length (self_times node) in
               let avg := if Nat.eqb count 0 then 0
                          else total / PyFloat.of_nat count in
               (PyStr.repeat "    " (List.length path) ++
                PyStr.ljust 15 (last path "") ++
                " total " ++ PyFloat.format_f 0 total ++ " ms   " ++
                PyStr.of_nat count ++ " runs   avg " ++
                PyFloat.format_f 2 avg ++ " ms")%string)
            printed)%list
       (cuda w)) /\
    (forall path node,
       In (path, node) printed <->
       node_at path (build_tree (all_times w)) = Some node /\ last path "" <> "").
Proof.
  exists (filter visit_printed (visits [] (build_tree (all_times w)))).
  split; [|intros path node; apply In_printed_visits].
  rewrite print_timing_summary_spec. unfold emit, report, printed_lines.
  unfold header.
  match goal with
  | |- _ = (_, mkWorld _ (_ ++ _ :: map ?f _)%list _) =>
      rewrite (map_ext visit_line f)
  end; [reflexivity|].
  intros [path node]. apply visit_line_eq.
Qed.

(** C4, as stated, fails: the line printed for a node "a" with the one
    sample 1.0 has no tab in it, while every text of the stated format
    has one after the padded name. *)
Lemma C4_counterexample :
  let w := mkWorld [("a", [1])] [] [] in
  let line := "    a               total 1 ms   1 runs   avg 1.00 ms" in
  print_timing_summary w =
    (Ok tt, mkWorld [("a", [1])] [String "010" "=== timing summary ==="; line] []) /\
  ~ exists pad name total count avg,
      line = (pad ++ PyStr.ljust 15 name ++ String "009" "total " ++
              PyFloat.format_f 0 total ++ " ms   " ++ PyStr.of_nat count ++
              " runs   avg " ++ PyFloat.format_f 2 avg ++ " ms")%string.
Proof.
  intros w line. split; [reflexivity|].
  intros (pad & name & total & count & avg & H).
  apply (f_equal (PyStr.contains "009")) in H.
  rewrite !contains_app in H.
  change (PyStr.contains "009" (String "009" "total ")) with true in H.
  rewrite orb_true_l, !orb_true_r in H.
  vm_compute in H. discriminate H.
Qed.

(** C5, as the code has it: every node of the tree is visited, and the
    visited nodes that get a line are exactly those whose name is not
    empty: a node with the empty name gets none. The line of a named
    node has the average being the total divided by the count when there
    are samples, and total 0, count 0, average 0.0 when there are none,
    children or not. *)
Theorem C5_named_nodes_printed (w : World) (path : list string) (n : _Node) :
  node_at path (build_tree (all_times w)) = Some n ->
  let total := PyFloat.sum (self_times n) in
  let count := List.length (self_times n) in
  exists avg printed,
    print_timing_summary w =
      (Ok tt,
       mkWorld (all_times w)
               (stdout w ++ header :: map visit_line printed)%list (cuda w)) /\
    In (path, n) (visits [] (build_tree (all_times w))) /\
    (In (path, n) printed <-> last path "" <> "") /\
    (last path "" <> "" -> In (visit_line (path, n)) (map visit_line printed)) /\
    (last path "" = "" ->
     forall indent w0,
       _print_exclusive n "" indent w0 =
       for_items (children n)
         (fun child_name child => _print_exclusive child child_name (indent + 1)) w0) /\
    visit_line (path, n) =
      node_line (PyStr.repeat "    " (List.length path)) (last path "")
                total count avg /\
    ((0 < count)%nat -> avg = total / PyFloat.of_nat count) /\
    (count = 0%nat ->
     avg = 0 /\ total = 0 /\
     node_line (PyStr.repeat "    " (List.length path)) (last path "") total count avg =
     (PyStr.repeat "    " (List.length path) ++ PyStr.ljust 15 (last path "") ++
      " total 0 ms   0 runs   avg 0.00 ms")%string).
Proof.
  intros Hn total count.
  exists (if Nat.eqb count 0 then 0 else total / PyFloat.of_nat count).
  exists (filter visit_printed (visits [] (build_tree (all_times w)))).
  split; [apply print_timing_summary_spec|].
  split; [apply (node_at_In_visits path _ [] n Hn)|].
  split; [rewrite In_printed_visits; tauto|].
  split; [intros Hname; apply in_map, In_printed_visits; now split|].
  split; [intros _ indent w0; destruct n; reflexivity|].
  split; [apply visit_line_eq|]. split.
  - intros Hpos. destruct count; [inversion Hpos | reflexivity].
  - unfold total, count. intros Hzero.
    apply length_zero_iff_nil in Hzero. rewrite Hzero. repeat split.
Qed.

Lemma C5_witness :
  let w := mkWorld [("ns..leaf", [3; 4])] [] [] in
  let unnamed := mkNode [] [("leaf", mkNode [3; 4] [])] in
  node_at ["ns"; ""] (build_tree (all_times w)) = Some unnamed /\
  exists printed,
    print_timing_summary w =
      (Ok tt,
       mkWorld (all_times w)
               (stdout w ++ header :: map visit_line printed)%list (cuda w)) /\
    In (["ns"; ""], unnamed) (visits [] (build_tree (all_times w))) /\
    ~ In (["ns"; ""], unnamed) printed.
Proof.
  intros w unnamed.
  assert (Hun : node_at ["ns"; ""] (build_tree (all_times w)) = Some unnamed)
    by reflexivity.
  split; [exact Hun|].
  destruct (C5_named_nodes_printed w ["ns"; ""] unnamed Hun)
    as (avg & printed & Hrun & Hvis & Hin & _).
  exists printed. split; [exact Hrun|]. split; [exact Hvis|].
  intros H. apply Hin in H. now apply H.
Defined.

(** C5, as stated, fails: with "a..b" recorded, the node named "" under
    "a" is reached from the children of the root, and no line is printed
    for it: the tree has three nodes below the root and the report two
    lines after the header. *)
Lemma C5_counterexample :
  let w := mkWorld [("a..b", [1])] [] [] in
  let skipped := mkNode [] [("b", mkNode [1] [])] in
  node_at ["a"; ""] (build_tree (all_times w)) = Some skipped /\
  List.length (visits [] (build_tree (all_times w))) = 4%nat /\
  print_timing_summary w =
    (Ok tt,
     mkWorld [("a..b", [1])]
       [String "010" "=== timing summary ===";
        "    a               total 0 ms   0 runs   avg 0.00 ms";
        "            b               total 1 ms   1 runs   avg 1.00 ms"] []) /\
  ~ In (node_line (PyStr.repeat "    " 2) "" (node_total skipped)
                  (node_count skipped) (node_avg skipped))
       (stdout (snd (print_timing_summary w))).
Proof.
  intros w skipped. split; [reflexivity|]. split; [reflexivity|].
  split; [reflexivity|].
  vm_compute. intros [H|[H|[H|[]]]]; discriminate H.
Qed.

(** C6: when "x.y" and "x.z" are recorded, the root has exactly one
    child named "x", which has exactly one child named "y" and one named
    "z", each with the samples of its own name only; when nothing else
    is recorded these are all the nodes of the tree. *)
Theorem C6_shared_prefix_node (times : Recorder) (ys zs : list float) :
  NoDup (Dict.keys times) -> In ("x.y", ys) times -> In ("x.z", zs) times ->
  let root := build_tree times in
  (exists nx ny nz,
     Dict.lookup "x" (children root) = Some nx /\
     count_occ string_dec (Dict.keys (children root)) "x" = 1%nat /\
     Dict.lookup "y" (children nx) = Some ny /\
     count_occ string_dec (Dict.keys (children nx)) "y" = 1%nat /\
     Dict.lookup "z" (children nx) = Some nz /\
     count_occ string_dec (Dict.keys (children nx)) "z" = 1%nat /\
     self_times ny = ys /\ self_times nz = zs) /\
  (Dict.keys times = ["x.y"; "x.z"] ->
   root = mkNode [] [("x", mkNode [] [("y", mkNode ys []); ("z", mkNode zs [])])]) /\
  (Dict.keys times = ["x.z"; "x.y"] ->
   root = mkNode [] [("x", mkNode [] [("z", mkNode zs []); ("y", mkNode ys [])])]).
Proof.
  intros Hnd Hy Hz root. split; [|split].
  - pose proof (distinct_children_build_tree times) as Hd. fold root in Hd.
    destruct (node_at_build_tree_name times "x.y" ys Hy) as [ny Hny].
    destruct (node_at_build_tree_name times "x.z" zs Hz) as [nz Hnz].
    fold root in Hny, Hnz.
    pose proof (node_at_self_times _ _ _ Hny) as Hsy.
    pose proof (node_at_self_times _ _ _ Hnz) as Hsz.
    unfold root in Hsy, Hsz. rewrite self_times_at_build_tree in Hsy, Hsz.
    rewrite (samples_recorded_at_unique _ _ _ Hnd Hy) in Hsy.
    rewrite (samples_recorded_at_unique _ _ _ Hnd Hz) in Hsz.
    change (PyStr.split "." "x.y") with ["x"; "y"] in Hny.
    change (PyStr.split "." "x.z") with ["x"; "z"] in Hnz.
    simpl in Hny, Hnz.
    destruct (Dict.lookup "x" (children root)) as [nx|] eqn:Ex; [|discriminate].
    assert (Hdx : distinct_children nx).
    { apply (distinct_children_node_at ["x"] root); [exact Hd|].
      simpl. now rewrite Ex. }
    destruct (Dict.lookup "y" (children nx)) as [ny'|] eqn:Ey; [|discriminate].
    destruct (Dict.lookup "z" (children nx)) as [nz'|] eqn:Ez; [|discriminate].
    injection Hny as ->. injection Hnz as ->.
    exists nx, ny, nz.
    repeat split; eauto using distinct_children_once.
  - intros Hkeys.
    destruct times as [|[k1 v1] [|[k2 v2] [|? ?]]]; try discriminate Hkeys.
    injection Hkeys as -> ->.
    destruct Hy as [Hy|[Hy|[]]]; [|discriminate Hy].
    destruct Hz as [Hz|[Hz|[]]]; [discriminate Hz|].
    injection Hy as ->. injection Hz as ->. reflexivity.
  - intros Hkeys.
    destruct times as [|[k1 v1] [|[k2 v2] [|? ?]]]; try discriminate Hkeys.
    injection Hkeys as -> ->.
    destruct Hy as [Hy|[Hy|[]]]; [discriminate Hy|].
    destruct Hz as [Hz|[Hz|[]]]; [|discriminate Hz].
    injection Hy as ->. injection Hz as ->. reflexivity.
Qed.

Lemma C6_witness :
  let times := [("x.y", [1; 2]); ("x.z", [3])] in
  (NoDup (Dict.keys times) /\ In ("x.y", [1; 2]) times /\ In ("x.z", [3]) times) /\
  build_tree times =
    mkNode [] [("x", mkNode [] [("y", mkNode [1; 2] []); ("z", mkNode [3] [])])].
Proof.
  intros times.
  assert (Hnd : NoDup (Dict.keys times)).
  { repeat constructor; simpl; intuition discriminate. }
  assert (Hy : In ("x.y", [1; 2]) times) by (left; reflexivity).
  assert (Hz : In ("x.z", [3]) times) by (right; left; reflexivity).
  split; [repeat split; assumption|].
  exact (proj1 (proj2 (C6_shared_prefix_node times [1; 2] [3] Hnd Hy Hz)) eq_refl).
Defined.

(** C7: the report is a function of the recorder state alone: a call of
    [print_timing_summary] prints it and leaves the recorder (and the
    device) as they were, so that a second call prints the same texts
    again. *)
Theorem C7_report_idempotent :
  exists render : Recorder -> list string,
    forall w : World,
    exists w1 w2,
      print_timing_summary w = (Ok tt, w1) /\
      print_timing_summary w1 = (Ok tt, w2) /\
      all_times w1 = all_times w /\ all_times w2 = all_times w /\
      cuda w1 = cuda w /\ cuda w2 = cuda w /\
      stdout w1 = (stdout w ++ render (all_times w))%list /\
      stdout w2 = (stdout w1 ++ render (all_times w))%list.
Proof.
  exists report. intros w.
  exists (emit (report (all_times w)) w).
  exists (emit (report (all_times w)) (emit (report (all_times w)) w)).
  split; [apply print_timing_summary_spec|].
  split; [apply (print_timing_summary_spec (emit (report (all_times w)) w))|].
  repeat split.
Qed.

(** C8: a scope made with [enabled=False] does nothing: [__init__]
    creates no event and sets neither [start] nor [end], [__enter__] and
    [__exit__] ask nothing of the device and leave the world, the
    recorder included, as it is, whatever the body did in between. *)
Theorem C8_disabled_scope_noop
  (device : list CudaCall -> nat -> nat -> float) (name : string) (w : World) :
  exists self,
    Timer.__init__ name false w = (Ok self, w) /\
    Timer.start self = None /\ Timer.end_ self = None /\
    (forall w', Timer.__enter__ self w' = (Ok tt, w')) /\
    (forall w', Timer.__exit__ device self w' = (Ok tt, w')) /\
    (self <- Timer.__init__ name false ;;
     Timer.__enter__ self ;;
     Timer.__exit__ device self)%py w = (Ok tt, w) /\
    (forall (A : Type) (body : Py A),
       Timer.with_timer device name false body w = body w).
Proof.
  exists (Timer.mk name false None None).
  repeat split.
  intros A body. unfold Timer.with_timer, bind. simpl.
  destruct (body w) as [[a|e] w']; reflexivity.
Qed.

(** C9, as the code has it: a name with empty segments is split like any
    other, every separator giving one more segment, and the tree has a
    node for every prefix of its segments, the empty ones included, with
    the samples at the last one. The tree is built and the report printed
    without an exception when every recorded name has fewer segments
    than the interpreter allows nested calls; a recorded name with at
    least that many segments makes the report raise RecursionError, with
    nothing printed. *)
Theorem C9_empty_segments_are_nodes
  (frames : nat) (w : World) (name : string) (lst : list float) :
  In (name, lst) (all_times w) ->
  ((forall name' lst', In (name', lst') (all_times w) ->
      List.length (PyStr.split "." name') < frames) ->
   build_tree_limited frames (all_times w) = Ok (build_tree (all_times w)) /\
   exists w',
     print_timing_summary_limited frames w = (Ok tt, w') /\
     print_timing_summary w = (Ok tt, w')) /\
  (frames <= List.length (PyStr.split "." name) ->
   print_timing_summary_limited frames w = (Raise RecursionError, w)) /\
  List.length (PyStr.split "." name) = S (PyStr.count "." name) /\
  PyStr.join "." (PyStr.split "." name) = name /\
  (forall k, exists m,
     node_at (firstn k (PyStr.split "." name)) (build_tree (all_times w)) = Some m) /\
  (exists m,
     node_at (PyStr.split "." name) (build_tree (all_times w)) = Some m /\
     incl lst (self_times m)) /\
  PyStr.split "." "a..b" = ["a"; ""; "b"] /\
  PyStr.split "." "." = [""; ""] /\
  PyStr.split "." ".a" = [""; "a"] /\
  PyStr.split "." "a." = ["a"; ""].
Proof.
  intros Hin. split.
  { intros Hshort.
    assert (Hpos : (0 < frames)%nat).
    { specialize (Hshort name lst Hin). lia. }
    destruct (print_timing_summary_limited_enough frames w Hpos Hshort)
      as [Hbuild Hprint].
    split; [exact Hbuild|]. eexists. rewrite Hprint.
    split; apply print_timing_summary_spec. }
  split; [now apply (print_timing_summary_limited_long frames w name lst)|].
  split; [apply length_split|].
  split; [apply join_split|].
  split; [intros k; now apply (node_at_fold_prefix _ _ name lst)|].
  split; [|repeat split].
  destruct (node_at_build_tree_name _ name lst Hin) as [m Hm].
  exists m. split; [exact Hm|].
  rewrite <- (node_at_self_times _ _ _ Hm), self_times_at_build_tree.
  now apply samples_recorded_at_incl.
Qed.

Lemma C9_witness :
  let w := mkWorld [("a..b", [1])] [] [] in
  In ("a..b", [1]) (all_times w) /\
  (exists w', print_timing_summary_limited 4 w = (Ok tt, w')) /\
  print_timing_summary_limited 3 w = (Raise RecursionError, w) /\
  (forall k, exists m,
     node_at (firstn k ["a"; ""; "b"]) (build_tree (all_times w)) = Some m) /\
  build_tree (all_times w) =
    mkNode [] [("a", mkNode [] [("", mkNode [] [("b", mkNode [1] [])])])].
Proof.
  intros w.
  assert (Hin : In ("a..b", [1]) (all_times w)) by (left; reflexivity).
  split; [exact Hin|].
  destruct (C9_empty_segments_are_nodes 4 w "a..b" [1] Hin)
    as [Hok [_ [_ [_ [Hpre _]]]]].
  destruct (C9_empty_segments_are_nodes 3 w "a..b" [1] Hin) as [_ [Hraise _]].
  split.
  { destruct Hok as [_ [w' [Hw' _]]].
    - intros name' lst' [H|[]]. injection H as <- _. simpl. lia.
    - now exists w'. }
  split; [apply Hraise; simpl; lia|].
  split; [exact Hpre | reflexivity].
Defined.

(** C9, as stated, fails: a name of 1000 separators and nothing else has
    1001 empty segments, and with 1000 nested calls allowed the report
    raises RecursionError while the tree is built; nothing is printed. *)
Lemma C9_counterexample :
  let name := PyStr.repeat "." 1000 in
  let w := mkWorld [(name, [1])] [] [] in
  PyStr.split "." name = List.repeat "" 1001 /\
  print_timing_summary_limited 1000 w = (Raise RecursionError, w).
Proof.
  intros name w. split; [vm_compute; reflexivity|].
  apply (print_timing_summary_limited_long 1000 w name [1]).
  - now left.
  - rewrite length_split. vm_compute. lia.
Qed.

(** C10: a call of [_print_exclusive] with the empty name prints no line
    for the node and goes through its children one indent deeper; so,
    when the last segment of a recorded name is empty, its node holds
    its samples and is not among the printed nodes, while the children of
    that node with a non-empty name are, indented by the length of their
    own path. *)
Theorem C10_empty_name_not_printed (w : World) (name : string) (lst : list float) :
  In (name, lst) (all_times w) ->
  last (PyStr.split "." name) "" = "" ->
  (forall node indent w0,
     _print_exclusive node "" indent w0 =
     for_items (children node)
       (fun child_name child => _print_exclusive child child_name (indent + 1)) w0) /\
  exists n printed,
    node_at (PyStr.split "." name) (build_tree (all_times w)) = Some n /\
    incl lst (self_times n) /\
    print_timing_summary w =
      (Ok tt,
       mkWorld (all_times w) (stdout w ++ header :: map visit_line printed)%list
               (cuda w)) /\
    ~ In (PyStr.split "." name) (map fst printed) /\
    (forall v, In v printed -> last (fst v) "" <> "") /\
    (forall child_name child,
       Dict.lookup child_name (children n) = Some child -> child_name <> "" ->
       In ((PyStr.split "." name ++ [child_name])%list, child) printed /\
       visit_line ((PyStr.split "." name ++ [child_name])%list, child) =
       node_line (PyStr.repeat "    " (List.length (PyStr.split "." name) + 1))
                 child_name (node_total child) (node_count child) (node_avg child)).
Proof.
  intros Hin Hlast. split.
  { intros [ts cs] indent w0. reflexivity. }
  destruct (node_at_build_tree_name _ name lst Hin) as [n Hn].
  exists n, (filter visit_printed (visits [] (build_tree (all_times w)))).
  split; [exact Hn|]. split.
  { rewrite <- (node_at_self_times _ _ _ Hn), self_times_at_build_tree.
    now apply samples_recorded_at_incl. }
  split; [apply print_timing_summary_spec|]. split.
  { intros Habs. apply in_map_iff in Habs as [[p m] [Hp Hpm]]. simpl in Hp. subst p.
    apply In_printed_visits in Hpm as [_ Hne]. contradiction. }
  split.
  { intros [p m] Hv. now apply In_printed_visits in Hv. }
  intros child_name child Hchild Hne. split.
  - apply In_printed_visits. rewrite node_at_app, Hn. simpl. rewrite Hchild.
    split; [reflexivity|]. now rewrite last_last.
  - unfold visit_line, visit_indent, visit_name. simpl fst. simpl snd.
    now rewrite last_last, length_app.
Qed.

Lemma C10_witness :
  let w := mkWorld [("a.", [1]); ("", [2])] [] [] in
  (In ("a.", [1]) (all_times w) /\ last (PyStr.split "." "a.") "" = "") /\
  (exists n printed,
     node_at ["a"; ""] (build_tree (all_times w)) = Some n /\
     incl [1] (self_times n) /\
     print_timing_summary w =
       (Ok tt,
        mkWorld (all_times w) (stdout w ++ header :: map visit_line printed)%list
                (cuda w)) /\
     ~ In ["a"; ""] (map fst printed)) /\
  print_timing_summary w =
    (Ok tt,
     mkWorld (all_times w)
       [String "010" "=== timing summary ===";
        "    a               total 0 ms   0 runs   avg 0.00 ms"] []).
Proof.
  intros w.
  assert (Hin : In ("a.", [1]) (all_times w)) by (left; reflexivity).
  assert (Hlast : last (PyStr.split "." "a.") "" = "") by reflexivity.
  split; [now split|]. split; [|reflexivity].
  destruct (C10_empty_name_not_printed w "a." [1] Hin Hlast)
    as [_ (n & printed & Hn & Hincl & Hrun & Hnot & _)].
  exists n, printed. repeat split; assumption.
Defined.

(** * Further properties of the code *)

Local Close Scope float_scope.

(** ** The recorder and the Timer *)

Lemma existsb_keys_lookup {V} k (d : list (string * V)) :
  existsb (String.eqb k) (Dict.keys d) =
  match Dict.lookup k d with Some _ => true | None => false end.
Proof.
  induction d as [|[k' v] d IH]; simpl; [reflexivity|].
  rewrite (String.eqb_sym k k').
  destruct (String.eqb k' k); simpl; [reflexivity | exact IH].
Qed.

Lemma keys_update_add_key {V} dflt k (f : V -> V) d :
  Dict.keys (Dict.update dflt k f d) = add_key k (Dict.keys d).
Proof.
  rewrite keys_update. unfold add_key. rewrite existsb_keys_lookup.
  now destruct (Dict.lookup k d).
Qed.

Lemma list_sum_update {V} (size : V -> nat) dflt k (f : V -> V) d delta :
  (forall v, size (f v) = size v + delta) -> size dflt = 0 ->
  list_sum (map (fun kv => size (snd kv)) (Dict.update dflt k f d)) =
  list_sum (map (fun kv => size (snd kv)) d) + delta.
Proof.
  intros Hf Hd. induction d as [|[k' v] d IH]; simpl.
  - rewrite Hf, Hd. lia.
  - destruct (String.eqb k' k); simpl.
    + rewrite Hf. lia.
    + rewrite IH. lia.
Qed.

(** What [all_times[name].append(elapsed)] does to the recorder. *)
Lemma record_sample_run name elapsed w :
  record_sample name elapsed w =
  (Ok tt,
   mkWorld (Dict.update [] name (fun l => l ++ [elapsed])%list (all_times w))
           (stdout w) (cuda w)).
Proof. reflexivity. Qed.

(** An enabled scope, whatever its body does. *)
Lemma with_timer_enabled_run device name {A} (body : Py A) w :
  let ev := List.length (cuda w) in
  let entered :=
    mkWorld (all_times w) (stdout w)
            (cuda w ++ [EventCreate ev; EventCreate (S ev); EventRecord ev])%list in
  let left_ w2 :=
    mkWorld
      (Dict.update [] name
         (fun l => l ++ [device (cuda w2 ++ [EventRecord (S ev); Synchronize])%list
                                ev (S ev)])%list
         (all_times w2))
      (stdout w2)
      (cuda w2 ++ [EventRecord (S ev); Synchronize; ElapsedTime ev (S ev)])%list in
  Timer.with_timer device name true body w =
  match body entered with
  | (Ok a, w2) => (Ok a, left_ w2)
  | (Raise e, w2) => (Raise e, left_ w2)
  end.
Proof.
  intros ev entered left_.
  unfold Timer.with_timer, Timer.__init__, Timer.__enter__, Timer.__exit__,
    Timer.new_event, Timer.elapsed_time, Timer.getattr, cuda_call, record_sample,
    bind, ret, raise.
  simpl. rewrite !length_app. simpl. rewrite Nat.add_1_r. fold ev.
  rewrite <- !app_assoc. simpl. fold entered.
  destruct (body entered) as [[a|e] w2]; unfold left_; simpl;
    rewrite <- !app_assoc; reflexivity.
Qed.

(** X1: when [__init__] has returned a Timer, enabled or not, the
    attributes its methods read are there: an enabled one has [start]
    and [end] set to two different events, a disabled one reads neither,
    so that [__enter__] and [__exit__] never raise AttributeError, as
    they would on an enabled Timer without its events. *)
Theorem X1_timer_attributes_present
  (device : list CudaCall -> nat -> nat -> float) (name : string) (enabled : bool)
  (w w1 : World) (self : Timer.t) :
  Timer.__init__ name enabled w = (Ok self, w1) ->
  Timer.name self = name /\ Timer.enabled self = enabled /\
  (enabled = true ->
   exists ev_start ev_end,
     Timer.start self = Some ev_start /\ Timer.end_ self = Some ev_end /\
     ev_start <> ev_end) /\
  (enabled = false -> Timer.start self = None /\ Timer.end_ self = None) /\
  (forall w', fst (Timer.__enter__ self w') <> Raise AttributeError) /\
  (forall w', fst (Timer.__exit__ device self w') <> Raise AttributeError) /\
  (forall w',
     Timer.__enter__ (Timer.mk name true None None) w' = (Raise AttributeError, w') /\
     Timer.__exit__ device (Timer.mk name true None None) w' =
       (Raise AttributeError, w')).
Proof.
  intros Hinit. destruct enabled.
  - unfold Timer.__init__, Timer.new_event, bind, ret in Hinit. simpl in Hinit.
    injection Hinit as <- <-. simpl.
    split; [reflexivity|]. split; [reflexivity|]. split.
    { intros _. eexists. eexists. split; [reflexivity|]. split; [reflexivity|].
      rewrite length_app. simpl. lia. }
    split; [discriminate|].
    split; [intros w'; discriminate|].
    split; [intros w'; discriminate|].
    intros w'. split; reflexivity.
  - unfold Timer.__init__, ret in Hinit. injection Hinit as <- <-. simpl.
    split; [reflexivity|]. split; [reflexivity|].
    split; [discriminate|]. split; [intros _; now split|].
    split; [intros w'; discriminate|].
    split; [intros w'; discriminate|].
    intros w'. split; reflexivity.
Qed.

Lemma X1_witness :
  let device := fun (_ : list CudaCall) (_ _ : nat) => 7%float in
  let w := mkWorld [] [] [] in
  let self := Timer.mk "a" true (Some 0) (Some 1) in
  Timer.__init__ "a" true w =
    (Ok self, mkWorld [] [] [EventCreate 0; EventCreate 1]) /\
  (forall w', fst (Timer.__enter__ self w') <> Raise AttributeError) /\
  (forall w', fst (Timer.__exit__ device self w') <> Raise AttributeError).
Proof.
  intros device w self.
  assert (Hinit : Timer.__init__ "a" true w =
                  (Ok self, mkWorld [] [] [EventCreate 0; EventCreate 1]))
    by reflexivity.
  split; [exact Hinit|].
  destruct (X1_timer_attributes_present device "a" true w _ self Hinit)
    as (_ & _ & _ & _ & Henter & Hexit & _).
  split; [exact Henter | exact Hexit].
Defined.

(** X2: an enabled scope whose body returns normally returns the value
    of the body and appends one sample under its name, to the recorder
    as the body left it; the device is asked to record the end event, to
    synchronize and only then for the elapsed time between the two events
    of the scope; nothing is printed. *)
Theorem X2_enabled_scope_appends_sample
  (device : list CudaCall -> nat -> nat -> float) (name : string)
  (A : Type) (body : Py A) (w w2 : World) (a : A) :
  let ev := List.length (cuda w) in
  body (mkWorld (all_times w) (stdout w)
          (cuda w ++ [EventCreate ev; EventCreate (S ev); EventRecord ev])%list)
    = (Ok a, w2) ->
  exists elapsed w3,
    Timer.with_timer device name true body w = (Ok a, w3) /\
    elapsed = device (cuda w2 ++ [EventRecord (S ev); Synchronize])%list ev (S ev) /\
    all_times w3 = Dict.update [] name (fun l => l ++ [elapsed])%list (all_times w2) /\
    stdout w3 = stdout w2 /\
    cuda w3 = (cuda w2 ++ [EventRecord (S ev); Synchronize; ElapsedTime ev (S ev)])%list.
Proof.
  intros ev Hbody. eexists. eexists.
  rewrite with_timer_enabled_run. fold ev. rewrite Hbody.
  repeat split.
Qed.

Lemma X2_witness :
  let device := fun (_ : list CudaCall) (_ _ : nat) => 7%float in
  let w := mkWorld [("a", [1%float])] [] [] in
  exists w3,
    Timer.with_timer device "a" true (print "body") w = (Ok tt, w3) /\
    all_times w3 = [("a", [1%float; 7%float])] /\
    stdout w3 = ["body"].
Proof.
  intros device w.
  destruct (X2_enabled_scope_appends_sample device "a" unit (print "body") w
              (mkWorld [("a", [1%float])] ["body"]
                       [EventCreate 0; EventCreate 1; EventRecord 0]) tt eq_refl)
    as (elapsed & w3 & Hrun & Hel & Htimes & Hout & _).
  exists w3. split; [exact Hrun|]. split.
  - rewrite Htimes, Hel. reflexivity.
  - exact Hout.
Defined.

(** X3: an enabled scope whose body raises still records its sample,
    after the same three calls to the device, and then raises the
    exception of the body again. *)
Theorem X3_enabled_scope_records_on_exception
  (device : list CudaCall -> nat -> nat -> float) (name : string)
  (A : Type) (body : Py A) (w w2 : World) (e : PyExc) :
  let ev := List.length (cuda w) in
  body (mkWorld (all_times w) (stdout w)
          (cuda w ++ [EventCreate ev; EventCreate (S ev); EventRecord ev])%list)
    = (Raise e, w2) ->
  exists elapsed w3,
    Timer.with_timer device name true body w = (Raise e, w3) /\
    elapsed = device (cuda w2 ++ [EventRecord (S ev); Synchronize])%list ev (S ev) /\
    all_times w3 = Dict.update [] name (fun l => l ++ [elapsed])%list (all_times w2) /\
    stdout w3 = stdout w2 /\
    cuda w3 = (cuda w2 ++ [EventRecord (S ev); Synchronize; ElapsedTime ev (S ev)])%list.
Proof.
  intros ev Hbody. eexists. eexists.
  rewrite with_timer_enabled_run. fold ev. rewrite Hbody.
  repeat split.
Qed.

Lemma X3_witness :
  let device := fun (_ : list CudaCall) (_ _ : nat) => 7%float in
  exists w3,
    Timer.with_timer device "a" true (@raise unit ZeroDivisionError)
                     (mkWorld [] [] []) = (Raise ZeroDivisionError, w3) /\
    all_times w3 = [("a", [7%float])].
Proof.
  intros device.
  destruct (X3_enabled_scope_records_on_exception device "a" unit
              (raise ZeroDivisionError) (mkWorld [] [] [])
              (mkWorld [] [] [EventCreate 0; EventCreate 1; EventRecord 0])
              ZeroDivisionError eq_refl)
    as (elapsed & w3 & Hrun & Hel & Htimes & _).
  exists w3. split; [exact Hrun|].
  rewrite Htimes, Hel. reflexivity.
Defined.

(** X4: appending a sample under a name puts it at the end of the list
    of that name, starting a list for a new name after all the other
    names; the other names keep their place and their samples, and the
    recorder holds exactly one more sample. *)
Theorem X4_record_sample_effect (name : string) (elapsed : float) (w : World) :
  exists w',
    record_sample name elapsed w = (Ok tt, w') /\
    stdout w' = stdout w /\ cuda w' = cuda w /\
    Dict.lookup name (all_times w') =
      Some ((match Dict.lookup name (all_times w) with
             | Some l => l
             | None => []
             end) ++ [elapsed])%list /\
    (forall other, other <> name ->
       Dict.lookup other (all_times w') = Dict.lookup other (all_times w)) /\
    Dict.keys (all_times w') = add_key name (Dict.keys (all_times w)) /\
    (NoDup (Dict.keys (all_times w)) -> NoDup (Dict.keys (all_times w'))) /\
    recorded_count (all_times w') = S (recorded_count (all_times w)).
Proof.
  eexists. split; [apply record_sample_run|]. simpl.
  split; [reflexivity|]. split; [reflexivity|].
  split; [rewrite lookup_update_same; reflexivity|].
  split; [intros other Hne; now apply lookup_update_other|].
  split; [apply keys_update_add_key|].
  split; [apply NoDup_keys_update|].
  unfold recorded_count.
  rewrite (list_sum_update (@List.length float) [] name _ _ 1); [lia| |reflexivity].
  intros l. rewrite length_app. reflexivity.
Qed.

(** ** The tree as a whole *)

Lemma sample_count_unfold ts cs :
  sample_count (mkNode ts cs) =
  List.length ts + list_sum (map (fun kc => sample_count (snd kc)) cs).
Proof.
  simpl. f_equal. f_equal. apply map_ext. now intros [k c].
Qed.

Lemma sample_count_extend parts values n :
  sample_count (extend parts values n) = sample_count n + List.length values.
Proof.
  revert n. induction parts as [|part rest IH]; intros [ts cs].
  - simpl extend. rewrite !sample_count_unfold, length_app. lia.
  - simpl extend. rewrite !sample_count_unfold.
    rewrite (list_sum_update sample_count new_node part _ cs (List.length values));
      [lia | exact IH | reflexivity].
Qed.

Lemma sample_count_fold times root :
  sample_count
    (fold_left (fun root '(fullname, lst) => extend (PyStr.split "." fullname) lst root)
               times root) =
  sample_count root + recorded_count times.
Proof.
  revert root. induction times as [|[name lst] times IH]; intros root; simpl.
  - unfold recorded_count. simpl. lia.
  - rewrite IH, sample_count_extend. unfold recorded_count. simpl. lia.
Qed.

(** X5: building the tree neither loses nor repeats a sample: the nodes
    of the tree hold, together, as many samples as the recorder. *)
Theorem X5_tree_holds_every_sample_once (times : Recorder) :
  sample_count (build_tree times) = recorded_count times.
Proof. unfold build_tree. now rewrite sample_count_fold. Qed.

(** X6: the tree has no node that was not asked for: there is a node
    at a path exactly when the path is empty (the root) or is the
    beginning of the segments of a recorded name. *)
Theorem X6_nodes_are_prefixes_of_names (times : Recorder) (path : list string) :
  (exists n, node_at path (build_tree times) = Some n) <->
  path = [] \/
  (exists name lst rest,
     In (name, lst) times /\ PyStr.split "." name = (path ++ rest)%list).
Proof. apply node_at_build_tree_iff. Qed.

Lemma samples_recorded_at_nonempty path times :
  samples_recorded_at path times <> [] ->
  exists name lst, In (name, lst) times /\ PyStr.split "." name = path.
Proof.
  induction times as [|[name lst] times IH]; intros H.
  - now contradiction H.
  - rewrite samples_recorded_at_cons in H.
    destruct (PyStr.list_eqb (PyStr.split "." name) path) eqn:E.
    + apply list_eqb_eq in E. exists name, lst. split; [now left | exact E].
    + simpl in H. destruct (IH H) as (name' & lst' & Hin & Hs).
      exists name', lst'. split; [now right | exact Hs].
Qed.

(** X7: with the names of the recorder distinct, a node that has
    samples stands for one recorded name, the segments of its path
    joined by ".", and its samples are the list recorded under that
    name. *)
Theorem X7_node_samples_belong_to_one_name
  (times : Recorder) (path : list string) (n : _Node) :
  NoDup (Dict.keys times) ->
  node_at path (build_tree times) = Some n ->
  self_times n <> [] ->
  In (PyStr.join "." path, self_times n) times /\
  PyStr.split "." (PyStr.join "." path) = path.
Proof.
  intros Hnd Hn Hne.
  pose proof (node_at_self_times _ _ _ Hn) as Hself.
  rewrite self_times_at_build_tree in Hself.
  rewrite <- Hself in Hne.
  destruct (samples_recorded_at_nonempty _ _ Hne) as (name & lst & Hin & Hs).
  subst path. rewrite join_split. split; [|reflexivity].
  rewrite <- Hself, (samples_recorded_at_unique _ _ _ Hnd Hin). exact Hin.
Qed.

Lemma X7_witness :
  let times := [("a.b", [1%float]); ("a", [2%float; 3%float])] in
  let n := mkNode [1%float] [] in
  (NoDup (Dict.keys times) /\ node_at ["a"; "b"] (build_tree times) = Some n /\
   self_times n <> []) /\
  In ("a.b", [1%float]) times.
Proof.
  intros times n.
  assert (Hnd : NoDup (Dict.keys times)).
  { repeat constructor; simpl; intuition discriminate. }
  assert (Hn : node_at ["a"; "b"] (build_tree times) = Some n) by reflexivity.
  assert (Hne : self_times n <> []) by discriminate.
  split; [repeat split; assumption|].
  exact (proj1 (X7_node_samples_belong_to_one_name times ["a"; "b"] n Hnd Hn Hne)).
Defined.

Lemma keys_children_extend parts values n :
  Dict.keys (children (extend parts values n)) =
  match parts with
  | [] => Dict.keys (children n)
  | part :: _ => add_key part (Dict.keys (children n))
  end.
Proof.
  destruct parts as [|part rest]; destruct n as [ts cs]; simpl; [reflexivity|].
  apply keys_update_add_key.
Qed.

Lemma keys_children_fold times root :
  Dict.keys (children
    (fold_left (fun root '(fullname, lst) => extend (PyStr.split "." fullname) lst root)
               times root)) =
  fold_left (fun seen k => add_key k seen) (map first_segment (Dict.keys times))
            (Dict.keys (children root)).
Proof.
  revert root. induction times as [|[name lst] times IH]; intros root; simpl.
  - reflexivity.
  - rewrite IH, keys_children_extend. unfold first_segment.
    pose proof (split_not_nil "." name) as Hne.
    now destruct (PyStr.split "." name).
Qed.

Lemma existsb_eqb_In k (l : list string) :
  existsb (String.eqb k) l = true <-> In k l.
Proof.
  rewrite existsb_exists. split.
  - intros [x [Hin Heq]]. apply String.eqb_eq in Heq. now subst.
  - intros Hin. exists k. split; [exact Hin | apply String.eqb_refl].
Qed.

Lemma add_key_In k l x : In x (add_key k l) <-> x = k \/ In x l.
Proof.
  unfold add_key. destruct (existsb (String.eqb k) l) eqn:E.
  - apply existsb_eqb_In in E. split; [tauto | intros [->|H]; assumption].
  - rewrite in_app_iff. simpl. intuition congruence.
Qed.

Lemma add_key_NoDup k l : NoDup l -> NoDup (add_key k l).
Proof.
  intros Hnd. unfold add_key. destruct (existsb (String.eqb k) l) eqn:E; [exact Hnd|].
  assert (Hnot : ~ In k l).
  { intros Hin. apply existsb_eqb_In in Hin. congruence. }
  apply NoDup_rev in Hnd. rewrite <- (rev_involutive (l ++ [k])%list).
  apply NoDup_rev. rewrite rev_app_distr. simpl. constructor; [|exact Hnd].
  now rewrite <- in_rev.
Qed.

Lemma fold_add_key_In l seen x :
  In x (fold_left (fun seen k => add_key k seen) l seen) <-> In x seen \/ In x l.
Proof.
  revert seen. induction l as [|k l IH]; intros seen; simpl; [tauto|].
  rewrite IH, add_key_In. intuition congruence.
Qed.

Lemma fold_add_key_NoDup l seen :
  NoDup seen -> NoDup (fold_left (fun seen k => add_key k seen) l seen).
Proof.
  revert seen. induction l as [|k l IH]; intros seen H; simpl; [exact H|].
  now apply IH, add_key_NoDup.
Qed.

(** X8: the children of the root, which are visited in this order, are
    the first segments of the recorded names, each once, in the order in
    which they first occur in the recorder: a name recorded later never
    moves an earlier child, it can only add its own first segment at the
    end. *)
Theorem X8_top_level_in_first_occurrence_order (times : Recorder) :
  let top := Dict.keys (children (build_tree times)) in
  top = first_occurrences (map first_segment (Dict.keys times)) /\
  NoDup top /\
  (forall k, In k top <-> In k (map first_segment (Dict.keys times))) /\
  (forall name lst,
     exists more,
       Dict.keys (children (build_tree (times ++ [(name, lst)])%list)) =
         (top ++ more)%list /\
       (more = [] \/ more = [first_segment name])).
Proof.
  intros top.
  assert (Htop : top = first_occurrences (map first_segment (Dict.keys times))).
  { unfold top, build_tree, first_occurrences. apply keys_children_fold. }
  split; [exact Htop|]. split; [|split].
  - rewrite Htop. apply fold_add_key_NoDup. constructor.
  - intros k. rewrite Htop. unfold first_occurrences.
    rewrite fold_add_key_In. simpl. tauto.
  - intros name lst. unfold build_tree. rewrite fold_left_app. simpl.
    rewrite keys_children_extend.
    pose proof (split_not_nil "." name) as Hne.
    unfold first_segment. destruct (PyStr.split "." name) as [|part rest];
      [contradiction|].
    simpl hd. fold (build_tree times). fold top.
    unfold add_key. destruct (existsb (String.eqb part) top).
    + exists []. split; [now rewrite app_nil_r | now left].
    + exists [part]. split; [reflexivity | now right].
Qed.

Lemma samples_recorded_at_permutation times times' path :
  Permutation times times' -> NoDup (Dict.keys times) ->
  samples_recorded_at path times = samples_recorded_at path times'.
Proof.
  intros Hperm Hnd.
  assert (Hnd' : NoDup (Dict.keys times')).
  { eapply Permutation_NoDup; [|exact Hnd]. now apply Permutation_map. }
  assert (Hentry : forall name lst,
            In (name, lst) times -> PyStr.split "." name = path ->
            samples_recorded_at path times = samples_recorded_at path times').
  { intros name lst Hin <-.
    rewrite (samples_recorded_at_unique _ _ _ Hnd Hin).
    symmetry. apply samples_recorded_at_unique; [exact Hnd'|].
    eapply Permutation_in; eassumption. }
  destruct (samples_recorded_at path times) as [|x l] eqn:E1.
  - destruct (samples_recorded_at path times') as [|y l'] eqn:E2; [reflexivity|].
    destruct (samples_recorded_at_nonempty path times') as (name & lst & Hin & Hs).
    { rewrite E2. discriminate. }
    apply (Hentry name lst); [|exact Hs].
    eapply Permutation_in; [apply Permutation_sym|]; eassumption.
  - destruct (samples_recorded_at_nonempty path times) as (name & lst & Hin & Hs).
    { rewrite E1. discriminate. }
    now apply (Hentry name lst).
Qed.

(** X9: with the names of the recorder distinct, the order in which
    they were first recorded has no effect on the nodes of the tree or on
    their samples (only on the order of the children): two recorders
    with the same entries give a node at the same paths, with the same
    samples. *)
Theorem X9_statistics_independent_of_recording_order
  (times times' : Recorder) (path : list string) :
  Permutation times times' -> NoDup (Dict.keys times) ->
  self_times_at path (build_tree times) = self_times_at path (build_tree times') /\
  ((exists n, node_at path (build_tree times) = Some n) <->
   (exists n', node_at path (build_tree times') = Some n')).
Proof.
  intros Hperm Hnd. split.
  - rewrite !self_times_at_build_tree. now apply samples_recorded_at_permutation.
  - rewrite !node_at_build_tree_iff.
    apply or_iff_compat_l. split; intros (name & lst & rest & Hin & Hs);
      exists name, lst, rest; (split; [|exact Hs]).
    + eapply Permutation_in; eassumption.
    + eapply Permutation_in; [apply Permutation_sym|]; eassumption.
Qed.

Lemma X9_witness :
  let times := [("a.b", [1%float]); ("c", [2%float])] in
  let times' := [("c", [2%float]); ("a.b", [1%float])] in
  (Permutation times times' /\ NoDup (Dict.keys times)) /\
  self_times_at ["a"; "b"] (build_tree times') = [1%float] /\
  Dict.keys (children (build_tree times)) = ["a"; "c"] /\
  Dict.keys (children (build_tree times')) = ["c"; "a"].
Proof.
  intros times times'.
  assert (Hperm : Permutation times times') by apply perm_swap.
  assert (Hnd : NoDup (Dict.keys times)).
  { repeat constructor; simpl; intuition discriminate. }
  split; [now split|]. split; [|split; reflexivity].
  rewrite <- (proj1 (X9_statistics_independent_of_recording_order
                       times times' ["a"; "b"] Hperm Hnd)).
  reflexivity.
Defined.

(** ** The layout of the report *)

Lemma visits_decompose q root p n :
  node_at q root = Some n ->
  exists before after,
    visits p root = (before ++ visits (p ++ q) n ++ after)%list.
Proof.
  revert root p. induction q as [|seg rest IH]; intros [ts cs] p H.
  - simpl in H. injection H as <-. exists [], [].
    now rewrite app_nil_r, app_nil_r.
  - simpl in H. destruct (Dict.lookup seg cs) as [c|] eqn:E; [|discriminate].
    apply lookup_Some_In, in_split in E as (l1 & l2 & ->).
    destruct (IH c (p ++ [seg])%list H) as (before & after & Hv).
    rewrite <- app_assoc in Hv. simpl in Hv.
    exists ((p, mkNode ts (l1 ++ (seg, c) :: l2)) ::
            flat_map (fun '(child_name, child) => visits (p ++ [child_name]) child) l1
            ++ before)%list.
    exists (after ++
            flat_map (fun '(child_name, child) => visits (p ++ [child_name]) child) l2)%list.
    rewrite visits_unfold, flat_map_app. simpl flat_map. rewrite Hv.
    simpl. f_equal. rewrite <- !app_assoc. reflexivity.
Qed.

Lemma printed_lines_visits path n :
  printed_lines (visits path n) =
  ((if PyStr.truthy (last path "") then [visit_line (path, n)] else []) ++
   flat_map (fun '(child_name, child) =>
               printed_lines (visits (path ++ [child_name]) child))
            (children n))%list.
Proof.
  destruct n as [ts cs]. rewrite visits_unfold.
  change (printed_lines ((path, mkNode ts cs) :: ?l))
    with (printed_lines ([(path, mkNode ts cs)] ++ l)%list).
  rewrite printed_lines_app. f_equal.
  - unfold printed_lines, visit_printed, visit_name. simpl.
    now destruct (PyStr.truthy (last path "")).
  - simpl children. induction cs as [|[k c] cs IH]; [reflexivity|].
    simpl flat_map. now rewrite printed_lines_app, IH.
Qed.

(** X10: in the report, the lines of a node and of all the nodes below
    it are one block of consecutive lines, the very lines a call of
    [_print_exclusive] on that node alone prints: first the line of the
    node, when it has a name, then the blocks of its children in their
    order. *)
Theorem X10_subtree_is_one_block (w : World) (path : list string) (n : _Node) :
  node_at path (build_tree (all_times w)) = Some n ->
  exists before block after,
    print_timing_summary w =
      (Ok tt,
       mkWorld (all_times w)
               (stdout w ++ header :: before ++ block ++ after)%list (cuda w)) /\
    (forall w0,
       _print_exclusive n (last path "") (List.length path) w0 =
       (Ok tt, mkWorld (all_times w0) (stdout w0 ++ block)%list (cuda w0))) /\
    block =
      ((if PyStr.truthy (last path "") then [visit_line (path, n)] else []) ++
       flat_map (fun '(child_name, child) =>
                   printed_lines (visits (path ++ [child_name]) child))
                (children n))%list.
Proof.
  intros Hn.
  destruct (visits_decompose path _ [] n Hn) as (vb & va & Hv). simpl in Hv.
  exists (printed_lines vb), (printed_lines (visits path n)), (printed_lines va).
  split; [|split].
  - rewrite print_timing_summary_spec. unfold emit, report.
    now rewrite Hv, !printed_lines_app.
  - intros w0. apply (_print_exclusive_spec n path w0).
  - apply printed_lines_visits.
Qed.

Lemma X10_witness :
  let w := mkWorld [("a.b", [1%float]); ("c", [2%float]); ("a", [3%float])] [] [] in
  let n := mkNode [3%float] [("b", mkNode [1%float] [])] in
  node_at ["a"] (build_tree (all_times w)) = Some n /\
  exists before block after,
    stdout (snd (print_timing_summary w)) = (header :: before ++ block ++ after)%list /\
    block = ["    a               total 3 ms   1 runs   avg 3.00 ms";
             "        b               total 1 ms   1 runs   avg 1.00 ms"].
Proof.
  intros w n.
  assert (Hn : node_at ["a"] (build_tree (all_times w)) = Some n) by reflexivity.
  split; [exact Hn|].
  destruct (X10_subtree_is_one_block w ["a"] n Hn)
    as (before & block & after & Hrun & _ & Hblock).
  exists before, block, after. split.
  - now rewrite Hrun.
  - rewrite Hblock. reflexivity.
Defined.

Lemma visits_paths_extend n :
  forall pre p m, In (p, m) (visits pre n) -> exists q, p = (pre ++ q)%list.
Proof.
  induction n as [ts cs IH] using _Node_ind. intros pre p m Hin.
  rewrite visits_unfold in Hin. destruct Hin as [Heq|Hin].
  - injection Heq as <- _. exists []. now rewrite app_nil_r.
  - apply in_flat_map in Hin as [[k c] [Hkc Hin]].
    rewrite Forall_forall in IH.
    destruct (IH _ Hkc _ _ _ Hin) as [q ->].
    exists (k :: q). now rewrite <- app_assoc.
Qed.

Lemma last_In (p : list string) d : p <> [] -> In (last p d) p.
Proof.
  intros Hne. destruct (exists_last Hne) as (l & a & ->).
  rewrite last_last, in_app_iff. right. now left.
Qed.

Lemma filter_all_true {A} (f : A -> bool) l :
  (forall x, In x l -> f x = true) -> filter f l = l.
Proof.
  induction l as [|x l IH]; intros H; simpl; [reflexivity|].
  rewrite (H x (or_introl eq_refl)), IH; [reflexivity|].
  intros y Hy. apply H. now right.
Qed.

Lemma named_path_printed times path n :
  (forall name lst, In (name, lst) times -> ~ In "" (PyStr.split "." name)) ->
  path <> [] -> node_at path (build_tree times) = Some n ->
  last path "" <> "".
Proof.
  intros Hwf Hne Hn.
  destruct (proj1 (node_at_build_tree_iff times path) (ex_intro _ n Hn))
    as [->|(name & lst & rest & Hin & Hs)]; [congruence|].
  intros Hlast. apply (Hwf name lst Hin). rewrite Hs, in_app_iff. left.
  rewrite <- Hlast. now apply last_In.
Qed.

(** X11: when no recorded name has an empty segment (no name is empty,
    starts or ends with ".", or has ".." in it), no node is left out of
    the report: it has the header and then one line for each node below
    the root, in the order of the traversal. *)
Theorem X11_names_without_empty_segment_all_printed (w : World) :
  (forall name lst,
     In (name, lst) (all_times w) -> ~ In "" (PyStr.split "." name)) ->
  exists lines,
    print_timing_summary w =
      (Ok tt, mkWorld (all_times w) (stdout w ++ header :: lines)%list (cuda w)) /\
    lines = map visit_line (tl (visits [] (build_tree (all_times w)))) /\
    S (List.length lines) = List.length (visits [] (build_tree (all_times w))) /\
    (forall path n,
       path <> [] -> node_at path (build_tree (all_times w)) = Some n ->
       In (visit_line (path, n)) lines).
Proof.
  intros Hwf.
  assert (Hfilter :
    filter visit_printed (visits [] (build_tree (all_times w))) =
    tl (visits [] (build_tree (all_times w)))).
  { pose proof (distinct_children_build_tree (all_times w)) as Hd.
    pose proof (visits_In_node_at _ Hd []) as Hvis.
    pose proof (visits_paths_extend (build_tree (all_times w))) as Hext.
    destruct (build_tree (all_times w)) as [ts cs] eqn:Etree.
    rewrite visits_unfold in *. simpl filter. simpl tl.
    apply filter_all_true. intros [p m] Hin.
    unfold visit_printed, visit_name. simpl fst. apply truthy_true.
    rewrite <- Etree in *.
    destruct (Hvis p m (or_intror Hin)) as [q [-> Hq]]. simpl in *.
    apply (named_path_printed (all_times w) q m Hwf); [|exact Hq].
    apply in_flat_map in Hin as [[k c] [_ Hin]].
    destruct (visits_paths_extend c _ _ _ Hin) as [q' ->]. discriminate. }
  exists (map visit_line (tl (visits [] (build_tree (all_times w))))).
  split; [|split; [reflexivity|split]].
  - rewrite print_timing_summary_spec. unfold emit, report, printed_lines.
    now rewrite Hfilter.
  - rewrite length_map. destruct (build_tree (all_times w)) as [ts cs].
    rewrite visits_unfold. reflexivity.
  - intros path n Hne Hn. apply in_map. rewrite <- Hfilter.
    apply In_printed_visits. split; [exact Hn|].
    now apply (named_path_printed (all_times w) path n).
Qed.

Lemma X11_witness :
  let w := mkWorld [("a.b", [1%float]); ("c", [2%float])] [] [] in
  (forall name lst,
     In (name, lst) (all_times w) -> ~ In "" (PyStr.split "." name)) /\
  exists lines,
    print_timing_summary w =
      (Ok tt, mkWorld (all_times w) (stdout w ++ header :: lines)%list (cuda w)) /\
    List.length lines = 3.
Proof.
  intros w.
  assert (Hwf : forall name lst,
            In (name, lst) (all_times w) -> ~ In "" (PyStr.split "." name)).
  { intros name lst [H|[H|[]]]; injection H as <- _; simpl; intuition discriminate. }
  split; [exact Hwf|].
  destruct (X11_names_without_empty_segment_all_printed w Hwf)
    as (lines & Hrun & Hlines & _).
  exists lines. split; [exact Hrun|]. rewrite Hlines. reflexivity.
Defined.

(** ** Scopes and the report together *)

(** X12: after an enabled scope has run under a name whose last segment
    is not empty, the report has the line of that name: indented by one
    level for each of its segments, with one run more than the name had
    before, the new elapsed time added last to its total, and their
    quotient as the average. *)
Theorem X12_scope_then_report
  (device : list CudaCall -> nat -> nat -> float) (name : string) (w : World) :
  NoDup (Dict.keys (all_times w)) ->
  last (PyStr.split "." name) "" <> "" ->
  let old := match Dict.lookup name (all_times w) with
             | Some l => l
             | None => []
             end in
  exists elapsed w1 printed,
    (Timer.with_timer device name true (ret tt) ;; print_timing_summary)%py w
      = (Ok tt, w1) /\
    Dict.lookup name (all_times w1) = Some (old ++ [elapsed])%list /\
    stdout w1 = (stdout w ++ printed)%list /\
    In (node_line (PyStr.repeat "    " (S (PyStr.count "." name)))
                  (last (PyStr.split "." name) "")
                  (PyFloat.sum (old ++ [elapsed]))
                  (S (List.length old))
                  (PyFloat.sum (old ++ [elapsed]) /
                   PyFloat.of_nat (S (List.length old)))%float)
       printed.
Proof.
  intros Hnd Hlast old.
  pose proof (with_timer_enabled_run device name (ret tt) w) as Hrun.
  cbv zeta in Hrun. unfold ret at 2 in Hrun. cbv beta iota in Hrun.
  match type of Hrun with
  | _ = (Ok tt, mkWorld (Dict.update _ _ (fun l => (l ++ [?e])%list) _) _ _) =>
      set (elapsed := e) in *
  end.
  match type of Hrun with _ = (Ok tt, ?w') => set (w1 := w') in * end.
  assert (Hlook : Dict.lookup name (all_times w1) = Some (old ++ [elapsed])%list).
  { unfold w1. simpl all_times. rewrite lookup_update_same. reflexivity. }
  assert (Hnd1 : NoDup (Dict.keys (all_times w1))).
  { unfold w1. simpl all_times. now apply NoDup_keys_update. }
  pose proof (lookup_Some_In _ _ _ Hlook) as Hin.
  destruct (node_at_build_tree_name _ _ _ Hin) as [n Hn].
  assert (Hself : self_times n = (old ++ [elapsed])%list).
  { rewrite <- (node_at_self_times _ _ _ Hn), self_times_at_build_tree.
    now apply samples_recorded_at_unique. }
  exists elapsed, (emit (report (all_times w1)) w1), (report (all_times w1)).
  split; [|split; [exact Hlook|split; [reflexivity|]]].
  - unfold bind. rewrite Hrun. apply print_timing_summary_spec.
  - right. unfold printed_lines.
    assert (Hline :
      visit_line (PyStr.split "." name, n) =
      node_line (PyStr.repeat "    " (S (PyStr.count "." name)))
                (last (PyStr.split "." name) "")
                (PyFloat.sum (old ++ [elapsed]))
                (S (List.length old))
                (PyFloat.sum (old ++ [elapsed]) /
                 PyFloat.of_nat (S (List.length old)))%float).
    { rewrite visit_line_eq, Hself, length_split, length_app, Nat.add_1_r.
      reflexivity. }
    rewrite <- Hline. apply in_map. apply In_printed_visits. now split.
Qed.

Lemma X12_witness :
  let device := fun (_ : list CudaCall) (_ _ : nat) => 4%float in
  let w := mkWorld [("net.conv", [2%float])] [] [] in
  (NoDup (Dict.keys (all_times w)) /\ last (PyStr.split "." "net.conv") "" <> "") /\
  exists w1,
    (Timer.with_timer device "net.conv" true (ret tt) ;; print_timing_summary)%py w
      = (Ok tt, w1) /\
    In "        conv            total 6 ms   2 runs   avg 3.00 ms" (stdout w1).
Proof.
  intros device w.
  assert (Hnd : NoDup (Dict.keys (all_times w))).
  { repeat constructor; simpl; intuition discriminate. }
  assert (Hlast : last (PyStr.split "." "net.conv") "" <> "") by discriminate.
  split; [now split|].
  destruct (X12_scope_then_report device "net.conv" w Hnd Hlast)
    as (elapsed & w1 & printed & Hrun & _).
  exists w1. split; [exact Hrun|].
  vm_compute in Hrun. injection Hrun as <-.
  right. right. now left.
Defined.

(** X13: of two nested enabled scopes the inner one appends its sample
    first, so that two new names enter the recorder, and later the
    report, with the inner one before the outer one; the device is asked
    for the elapsed time of the inner scope between the two records of
    the outer one. *)
Theorem X13_nested_scopes
  (device : list CudaCall -> nat -> nat -> float) (outer inner : string) (w : World) :
  let ev := List.length (cuda w) in
  exists t_inner t_outer w',
    Timer.with_timer device outer true
      (Timer.with_timer device inner true (ret tt)) w = (Ok tt, w') /\
    all_times w' =
      Dict.update [] outer (fun l => l ++ [t_outer])%list
        (Dict.update [] inner (fun l => l ++ [t_inner])%list (all_times w)) /\
    Dict.keys (all_times w') = add_key outer (add_key inner (Dict.keys (all_times w))) /\
    stdout w' = stdout w /\
    cuda w' =
      (cuda w ++
       [EventCreate ev; EventCreate (ev + 1); EventRecord ev;
        EventCreate (ev + 3); EventCreate (ev + 4); EventRecord (ev + 3);
        EventRecord (ev + 4); Synchronize; ElapsedTime (ev + 3) (ev + 4);
        EventRecord (ev + 1); Synchronize; ElapsedTime ev (ev + 1)])%list.
Proof.
  intros ev.
  rewrite with_timer_enabled_run. fold ev.
  rewrite with_timer_enabled_run. unfold ret at 1. cbv beta iota zeta.
  simpl cuda. simpl all_times. simpl stdout.
  eexists. eexists. eexists. split; [reflexivity|]. simpl.
  split; [reflexivity|].
  split; [now rewrite !keys_update_add_key|].
  split; [reflexivity|].
  rewrite !length_app. simpl List.length. fold ev.
  rewrite <- !app_assoc. simpl.
  replace (S ev) with (ev + 1) by lia.
  replace (S (ev + 3)) with (ev + 4) by lia.
  reflexivity.
Qed.

(** ** The index helpers *)

Lemma masked_row_fst (x : nat) (b : list nat) :
  map fst (filter snd
    (combine (map (fun _ => x) b)
       (map (fun '(u, v) => negb (Nat.eqb u v)) (combine (map (fun _ => x) b) b)))) =
  map (fun _ => x) (filter (Torch.differ x) b).
Proof.
  induction b as [|y b IH]; simpl; [reflexivity|].
  unfold Torch.differ at 1. destruct (Nat.eqb x y); simpl; now rewrite IH.
Qed.

Lemma masked_row_snd (x : nat) (b : list nat) :
  map fst (filter snd
    (combine b
       (map (fun '(u, v) => negb (Nat.eqb u v)) (combine (map (fun _ => x) b) b)))) =
  filter (Torch.differ x) b.
Proof.
  induction b as [|y b IH]; simpl; [reflexivity|].
  unfold Torch.differ at 1. destruct (Nat.eqb x y); simpl; now rewrite IH.
Qed.

Lemma masked_meshgrid (a b : list nat) :
  let '(ii, jj) := Torch.meshgrid a b in
  Torch.masked ii (Torch.ne ii jj) =
    flat_map (fun x => map (fun _ => x) (filter (Torch.differ x) b)) a /\
  Torch.masked jj (Torch.ne ii jj) =
    flat_map (fun x => filter (Torch.differ x) b) a.
Proof.
  unfold Torch.meshgrid, Torch.masked, Torch.ne.
  induction a as [|x a [IH1 IH2]]; [split; reflexivity|].
  simpl. rewrite masked_row_fst, masked_row_snd, IH1, IH2. now split.
Qed.

Lemma combine_app_same {A B} (l1 l2 : list A) (r1 r2 : list B) :
  List.length l1 = List.length r1 ->
  combine (l1 ++ l2) (r1 ++ r2) = (combine l1 r1 ++ combine l2 r2)%list.
Proof.
  revert r1. induction l1 as [|x l1 IH]; intros [|y r1] H; simpl in *;
    try discriminate; [reflexivity|].
  injection H as H. now rewrite IH.
Qed.

Lemma combine_const {A B} (x : A) (l : list B) :
  combine (map (fun _ => x) l) l = map (pair x) l.
Proof. induction l as [|y l IH]; simpl; [reflexivity | now rewrite IH]. Qed.

Lemma combine_rows (a b : list nat) :
  combine (flat_map (fun x => map (fun _ => x) (filter (Torch.differ x) b)) a)
          (flat_map (fun x => filter (Torch.differ x) b) a) =
  flat_map (fun x => map (pair x) (filter (Torch.differ x) b)) a.
Proof.
  induction a as [|x a IH]; simpl; [reflexivity|].
  rewrite combine_app_same by apply length_map.
  now rewrite combine_const, IH.
Qed.

Lemma rows_filter_prod (a b : list nat) :
  flat_map (fun x => map (pair x) (filter (Torch.differ x) b)) a =
  filter (fun '(i, j) => negb (Nat.eqb i j)) (list_prod a b).
Proof.
  induction a as [|x a IH]; simpl; [reflexivity|].
  rewrite filter_app, IH. f_equal.
  clear IH. induction b as [|y b IHb]; simpl; [reflexivity|].
  unfold Torch.differ at 1. destruct (Nat.eqb x y); simpl; now rewrite IHb.
Qed.

Lemma NoDup_map_pair {A B} (x : A) (l : list B) : NoDup l -> NoDup (map (pair x) l).
Proof.
  induction 1 as [|y l Hnotin Hnd IH]; simpl; constructor; [|exact IH].
  intros Hin. apply in_map_iff in Hin as [y' [Heq Hin]].
  injection Heq as ->. contradiction.
Qed.

Lemma NoDup_list_prod {A B} (a : list A) (b : list B) :
  NoDup a -> NoDup b -> NoDup (list_prod a b).
Proof.
  intros Ha Hb. induction Ha as [|x a Hnotin Ha IH]; simpl; [constructor|].
  apply NoDup_app; [now apply NoDup_map_pair | exact IH |].
  intros [x' y'] Hin Hin'. apply in_map_iff in Hin as [y [Heq _]].
  injection Heq as <- _. apply in_prod_iff in Hin' as [Hx _]. contradiction.
Qed.

Lemma filter_differ_length (x : nat) (b : list nat) :
  NoDup b -> In x b ->
  List.length (filter (Torch.differ x) b) = List.length b - 1.
Proof.
  induction 1 as [|y b Hnotin Hnd IH]; intros Hin; [destruct Hin|].
  simpl. unfold Torch.differ at 1. destruct (Nat.eqb_spec x y) as [->|Hne]; simpl.
  - rewrite filter_all_true; [lia|].
    intros z Hz. unfold Torch.differ. apply negb_true_iff, Nat.eqb_neq. congruence.
  - destruct Hin as [->|Hin]; [congruence|].
    rewrite (IH Hin). destruct b; [destruct Hin | simpl; lia].
Qed.

Lemma length_flat_map_const {A B} (g : A -> list B) (l : list A) (c : nat) :
  (forall x, In x l -> List.length (g x) = c) ->
  List.length (flat_map g l) = List.length l * c.
Proof.
  induction l as [|x l IH]; intros H; simpl; [reflexivity|].
  rewrite length_app, (H x (or_introl eq_refl)), IH; [reflexivity|].
  intros y Hy. apply H. now right.
Qed.

(** X14: [all_pairs_exclusive(n)] returns two index lists of length
    [n * (n - 1)] which, read together, are the ordered pairs [(i, j)] of
    distinct indices below [n], each once, in row-major order; no pair
    [(i, i)] is among them. *)
Theorem X14_all_pairs_exclusive (n : nat) :
  let ii := fst (all_pairs_exclusive n) in
  let jj := snd (all_pairs_exclusive n) in
  List.length ii = n * (n - 1) /\
  List.length jj = n * (n - 1) /\
  combine ii jj =
    filter (fun '(i, j) => negb (Nat.eqb i j)) (list_prod (seq 0 n) (seq 0 n)) /\
  NoDup (combine ii jj) /\
  (forall i j, In (i, j) (combine ii jj) <-> i < n /\ j < n /\ i <> j).
Proof.
  intros ii jj.
  pose proof (masked_meshgrid (Torch.arange n) (Torch.arange n)) as Hm.
  unfold all_pairs_exclusive in ii, jj.
  destruct (Torch.meshgrid (Torch.arange n) (Torch.arange n)) as [gi gj].
  destruct Hm as [Hi Hj]. simpl in ii, jj. unfold Torch.arange in *.
  assert (Hcomb : combine ii jj =
            filter (fun '(i, j) => negb (Nat.eqb i j))
                   (list_prod (seq 0 n) (seq 0 n))).
  { unfold ii, jj. rewrite Hi, Hj, combine_rows. apply rows_filter_prod. }
  assert (Hrow : forall x, In x (seq 0 n) ->
            List.length (filter (Torch.differ x) (seq 0 n)) = n - 1).
  { intros x Hx. rewrite filter_differ_length; [|apply seq_NoDup | exact Hx].
    now rewrite length_seq. }
  split; [|split; [|split; [exact Hcomb|split]]].
  - unfold ii. rewrite Hi.
    rewrite (length_flat_map_const _ _ (n - 1)); [now rewrite length_seq|].
    intros x Hx. rewrite length_map. now apply Hrow.
  - unfold jj. rewrite Hj.
    rewrite (length_flat_map_const _ _ (n - 1)); [now rewrite length_seq | exact Hrow].
  - rewrite Hcomb. apply NoDup_filter, NoDup_list_prod; apply seq_NoDup.
  - intros i j. rewrite Hcomb, filter_In, in_prod_iff, !in_seq.
    rewrite negb_true_iff, Nat.eqb_neq. lia.
Qed.

(** X15: [flatmeshgrid(a, b)] returns two flat tensors of
    [len(a) * len(b)] elements which, read together, are all the pairs
    of an element of [a] and an element of [b], row after row. *)
Theorem X15_flatmeshgrid_pairs {A B : Type} (a : list A) (b : list B) :
  let fa := fst (flatmeshgrid2 a b) in
  let fb := snd (flatmeshgrid2 a b) in
  List.length fa = List.length a * List.length b /\
  List.length fb = List.length a * List.length b /\
  combine fa fb = list_prod a b.
Proof.
  unfold flatmeshgrid2, Torch.meshgrid, Torch.reshape_flat. simpl.
  induction a as [|x a (IH1 & IH2 & IH3)]; simpl; [repeat split|].
  rewrite !length_app, length_map, IH1, IH2.
  repeat split.
  rewrite combine_app_same by apply length_map.
  now rewrite combine_const, IH3.
Qed.

(** ** Reports without lines, nodes without samples *)

Lemma filter_all_false {A} (f : A -> bool) l :
  (forall x, In x l -> f x = false) -> filter f l = [].
Proof.
  induction l as [|x l IH]; intros H; simpl; [reflexivity|].
  rewrite (H x (or_introl eq_refl)). apply IH.
  intros y Hy. apply H. now right.
Qed.

(** X16: the report is the header alone exactly when every segment of
    every recorded name is empty, in particular when nothing was
    recorded; one non-empty segment in one name gives at least one
    line. *)
Theorem X16_header_only_report (w : World) :
  print_timing_summary w =
    (Ok tt, mkWorld (all_times w) (stdout w ++ [header])%list (cuda w)) <->
  (forall name lst seg,
     In (name, lst) (all_times w) -> In seg (PyStr.split "." name) -> seg = "").
Proof.
  rewrite print_timing_summary_spec. unfold emit, report. split.
  - intros Heq name lst seg Hin Hseg.
    injection Heq as Heq. apply app_inv_head in Heq. injection Heq as Hnil.
    destruct (string_dec seg "") as [|Hne]; [assumption|exfalso].
    apply in_split in Hseg as (l1 & l2 & Hs).
    assert (Hnode : exists n,
              node_at (l1 ++ [seg])%list (build_tree (all_times w)) = Some n).
    { apply node_at_build_tree_iff. right. exists name, lst, l2.
      split; [exact Hin|]. now rewrite <- app_assoc. }
    destruct Hnode as [n Hn].
    assert (Hline : In (visit_line ((l1 ++ [seg])%list, n))
                       (printed_lines (visits [] (build_tree (all_times w))))).
    { apply in_map. apply In_printed_visits. split; [exact Hn|].
      now rewrite last_last. }
    rewrite Hnil in Hline. destruct Hline.
  - intros Hempty. do 3 f_equal. unfold printed_lines.
    rewrite filter_all_false; [reflexivity|].
    intros [p m] Hin. unfold visit_printed, visit_name. simpl fst.
    destruct (PyStr.truthy (last p "")) eqn:E; [|reflexivity]. exfalso.
    apply truthy_true in E.
    destruct (visits_In_node_at _ (distinct_children_build_tree (all_times w))
                [] p m Hin) as [q [-> Hq]]. simpl in *.
    destruct (proj1 (node_at_build_tree_iff (all_times w) q) (ex_intro _ m Hq))
      as [->|(name & lst & rest & Hname & Hs)]; [now apply E|].
    destruct q as [|seg q]; [now apply E|].
    apply E, (Hempty name lst); [exact Hname|].
    rewrite Hs, in_app_iff. left. now apply last_In.
Qed.

Lemma Forall_update_always {V} (P : V -> Prop) dflt k (f : V -> V)
  (d : list (string * V)) :
  (forall v, P (f v)) ->
  Forall (fun kv => P (snd kv)) d ->
  Forall (fun kv => P (snd kv)) (Dict.update dflt k f d).
Proof.
  intros Hf. induction 1 as [|[k' v] d Hv Hrest IH]; simpl.
  - constructor; [apply Hf | constructor].
  - destruct (String.eqb k' k); constructor; simpl in *; auto.
Qed.

Lemma recorder_ok_update name elapsed times :
  recorder_ok times ->
  recorder_ok (Dict.update [] name (fun l => l ++ [elapsed])%list times).
Proof.
  intros [Hnd Hall]. split; [now apply NoDup_keys_update|].
  apply (Forall_update_always (fun l : list float => l <> [])); [|exact Hall].
  intros l H. now destruct l.
Qed.

(** X17: a recorder written to by scopes only keeps its names distinct
    and has no name without a sample: this holds at the start, and a
    scope, enabled or not, keeps it when its body does. *)
Theorem X17_scopes_keep_recorder_ok
  (device : list CudaCall -> nat -> nat -> float) (name : string) (enabled : bool)
  (A : Type) (body : Py A) (w : World) :
  (forall w0, recorder_ok (all_times w0) -> recorder_ok (all_times (snd (body w0)))) ->
  recorder_ok (all_times w) ->
  recorder_ok [] /\
  recorder_ok (all_times (snd (Timer.with_timer device name enabled body w))).
Proof.
  intros Hbody Hw. split; [split; constructor|].
  destruct enabled.
  - rewrite with_timer_enabled_run.
    match goal with
    | |- context [body ?w0] =>
        specialize (Hbody w0 Hw); destruct (body w0) as [[a|e] w2]
    end; simpl in *; now apply recorder_ok_update.
  - unfold Timer.with_timer, bind. simpl.
    specialize (Hbody w Hw). now destruct (body w) as [[a|e] w2].
Qed.

Lemma X17_witness :
  let device := fun (_ : list CudaCall) (_ _ : nat) => 4%float in
  let w := mkWorld [("a", [1%float])] [] [] in
  ((forall w0, recorder_ok (all_times w0) ->
               recorder_ok (all_times (snd (print "x" w0)))) /\
   recorder_ok (all_times w)) /\
  recorder_ok (all_times (snd (Timer.with_timer device "b" true (print "x") w))).
Proof.
  intros device w.
  assert (Hbody : forall w0, recorder_ok (all_times w0) ->
                             recorder_ok (all_times (snd (print "x" w0)))).
  { intros w0 H. exact H. }
  assert (Hw : recorder_ok (all_times w)).
  { split; repeat constructor; simpl; intuition discriminate. }
  split; [now split|].
  exact (proj2 (X17_scopes_keep_recorder_ok device "b" true unit (print "x") w
                  Hbody Hw)).
Defined.

(** X18: in the tree of such a recorder the nodes without samples, which
    are printed with count 0, are exactly the nodes whose path is not
    itself a recorded name: the root, and the levels that exist only
    because a longer name goes through them. *)
Theorem X18_count_zero_iff_not_recorded
  (times : Recorder) (path : list string) (n : _Node) :
  recorder_ok times ->
  node_at path (build_tree times) = Some n ->
  (node_count n = 0 <->
   forall name lst, In (name, lst) times -> PyStr.split "." name <> path).
Proof.
  intros [Hnd Hall] Hn.
  pose proof (node_at_self_times _ _ _ Hn) as Hself.
  rewrite self_times_at_build_tree in Hself.
  unfold node_count. rewrite length_zero_iff_nil. split.
  - intros Hnil name lst Hin Hs. subst path.
    rewrite (samples_recorded_at_unique _ _ _ Hnd Hin) in Hself.
    rewrite Forall_forall in Hall. apply (Hall _ Hin). simpl. congruence.
  - intros Hnone. destruct (self_times n) as [|x l] eqn:E; [reflexivity|].
    destruct (samples_recorded_at_nonempty path times) as (name & lst & Hin & Hs).
    { rewrite Hself. discriminate. }
    exfalso. exact (Hnone name lst Hin Hs).
Qed.

Lemma X18_witness :
  let times := [("a.b", [1%float])] in
  (recorder_ok times /\
   node_at ["a"] (build_tree times) = Some (mkNode [] [("b", mkNode [1%float] [])])) /\
  node_count (mkNode [] [("b", mkNode [1%float] [])]) = 0.
Proof.
  intros times.
  assert (Hok : recorder_ok times).
  { split; repeat constructor; simpl; intuition discriminate. }
  assert (Hn : node_at ["a"] (build_tree times) =
               Some (mkNode [] [("b", mkNode [1%float] [])])) by reflexivity.
  split; [now split|].
  apply (proj2 (X18_count_zero_iff_not_recorded times ["a"] _ Hok Hn)).
  intros name lst [H|[]]. injection H as <- _. discriminate.
Defined.
